(** * Channel state synchronisation of stream-chat-react

    A shallow embedding of [src/components/Channel/Channel.js] (the
    [ChannelInner] component: its hooks state, its handlers and its
    asynchronous actions) and of the status logic of
    [src/components/Message/MessageTeam.tsx] ([MessageTeamStatus]).

    Conventions of the embedding:
    - a JavaScript object is a record, an optional property is an [option];
    - [channel.state] is the mutable store of the chat SDK; it is a field
      of the [World] and every handler reads it at the moment it runs;
    - the values a React callback closes over ([messages], [thread],
      [loadingMore], ...) are passed explicitly as the render [Hooks] the
      callback was created in, separately from the live [World];
    - an [async] function is a [Proc]: it returns, throws, or suspends on a
      backend call with a continuation that is resumed in the world of the
      moment the backend answers. *)

From stdpp Require Import base strings list gmap pretty.
From Stdlib Require Import ZArith Lia.

Local Open Scope Z_scope.
Local Open Scope string_scope.

(** ** JavaScript values *)

(** Truthiness of a string: only the empty string is falsy. *)
Definition truthy (s : string) : bool := bool_decide (s ≠ "").

(** Truthiness of an optional string property ([undefined] is falsy). *)
Definition truthy_opt (o : option string) : bool :=
  match o with
  | Some s => truthy s
  | None => false
  end.

(** [s || null] on a string. *)
Definition or_null (s : string) : option string :=
  if truthy s then Some s else None.

(** ** Messages *)

Inductive Status := sending | received | failed.

#[global] Instance Status_eq_dec : EqDecision Status.
Proof. solve_decision. Defined.

Module User.
Record t := mk { id : string; name : string; image : string }.

#[global] Instance eq_dec : EqDecision t.
Proof. solve_decision. Defined.
End User.

Module Message.
Record t := mk {
  id : string;
  text : string;
  html : string;
  type : string;
  status : Status;
  user : User.t;
  created_at : Z;
  attachments : list string;
  mentioned_users : list string;
  reactions : list string;
  parent_id : option string;
  show_in_channel : bool;
}.

#[global] Instance eq_dec : EqDecision t.
Proof. solve_decision. Defined.

(** The object spread [{ ...m, status: st }]. *)
Definition with_status (m : t) (st : Status) : t :=
  {| id := id m; text := text m; html := html m; type := type m;
     status := st; user := user m; created_at := created_at m;
     attachments := attachments m; mentioned_users := mentioned_users m;
     reactions := reactions m; parent_id := parent_id m;
     show_in_channel := show_in_channel m |}.
End Message.

(** ** The channel state store of the SDK ([channel.state])

    The store is an object of the [stream-chat] package; only its calls
    appear in the component.  Its three mutations are modelled from the
    specification of the store (section 4.1). *)

Module ChannelState.
Record t := mk {
  messages : list Message.t;
  threads : gmap string (list Message.t);
  watchers : gmap string User.t;
  read : gmap string (Z * User.t);
  typing : gmap string string;
  members : gmap string User.t;
  watcher_count : nat;
}.

(** [threads[key] || []]: a thread array is always truthy, so the
    alternative is taken exactly when the property is missing.  The map
    is keyed by the identifiers of the parent messages.  With a missing
    [parent_id] JavaScript reads the property named ["undefined"], which is
    no message identifier: the lookup finds no thread. *)
Definition thread_of (s : t) (key : option string) : list Message.t :=
  default [] (key ≫= λ k, threads s !! k).

(** Order key of the store: creation time, ties broken by identifier. *)
Definition before (a b : Message.t) : bool :=
  (Message.created_at a <? Message.created_at b)%Z
  || ((Message.created_at a =? Message.created_at b)%Z
      && String.ltb (Message.id a) (Message.id b)).

Fixpoint insert_sorted (m : Message.t) (l : list Message.t) : list Message.t :=
  match l with
  | [] => [m]
  | x :: r => if before m x then m :: x :: r else x :: insert_sorted m r
  end.

Definition has_id (i : string) (l : list Message.t) : bool :=
  existsb (λ x, bool_decide (Message.id x = i)) l.

Definition replace_by_id (m : Message.t) (l : list Message.t) : list Message.t :=
  map (λ x, if bool_decide (Message.id x = Message.id m) then m else x) l.

(** Modelled from the spec: the list insertion behind
    [channel.state.addMessageSorted], which is not part of the sources.
    "Inserts a message keeping sort order by creation time with ties
    broken by identifier; if a message with the same identifier already
    exists, it is replaced in place (preserves position)." *)
Definition addOrReplace (m : Message.t) (l : list Message.t) : list Message.t :=
  if has_id (Message.id m) l then replace_by_id m l else insert_sorted m l.

(** Modelled from the spec: [channel.state.addMessageSorted], which is
    not part of the sources.  The component documents the call as "this
    adds to both the main channel state as well as any reply threads":
    the message enters the main sequence and, when it has a parent, the
    reply sequence of that parent. *)
Definition addMessageSorted (m : Message.t) (s : t) : t :=
  {| messages := addOrReplace m (messages s);
     threads :=
       match Message.parent_id m with
       | Some p =>
           if truthy p
           then <[p := addOrReplace m (default [] (threads s !! p))]> (threads s)
           else threads s
       | None => threads s
       end;
     watchers := watchers s; read := read s; typing := typing s;
     members := members s; watcher_count := watcher_count s |}.

Definition without_id (i : string) (l : list Message.t) : list Message.t :=
  filter (λ x, Message.id x ≠ i) l.

(** Modelled from the spec: [channel.state.removeMessage], which is not
    part of the sources.  "[remove] deletes by identifier from both the
    main sequence and any thread sequence that contains it." *)
Definition removeMessage (m : Message.t) (s : t) : t :=
  {| messages := without_id (Message.id m) (messages s);
     threads := without_id (Message.id m) <$> threads s;
     watchers := watchers s; read := read s; typing := typing s;
     members := members s; watcher_count := watcher_count s |}.

Definition not_failed (l : list Message.t) : list Message.t :=
  filter (λ x, Message.status x ≠ failed) l.

(** Modelled from the spec: [channel.state.filterErrorMessages], which
    is not part of the sources.  "[filterFailed] discards every message
    currently in [failed] status." *)
Definition filterErrorMessages (s : t) : t :=
  {| messages := not_failed (messages s);
     threads := not_failed <$> threads s;
     watchers := watchers s; read := read s; typing := typing s;
     members := members s; watcher_count := watcher_count s |}.

(** [channel.state.messageToImmutable]: freezes a message object; the
    record of the embedding is already a value. *)
Definition messageToImmutable (m : Message.t) : Message.t := m.

End ChannelState.

(** ** The component: hooks state, refs and collaborators *)

(** The [useState] cells of [ChannelInner] that the handlers touch. *)
Record Hooks := mkHooks {
  loadingMore : bool;
  hasMore : bool;
  messages : list Message.t;
  typing : gmap string string;
  watchers : gmap string User.t;
  watcherCount : nat;
  read : gmap string (Z * User.t);
  thread : option Message.t;
  threadMessages : list Message.t;
  threadLoadingMore : bool;
  threadHasMore : bool;
}.

(** Modelled from the spec: the rate limiter behind [lodash.throttle] and
    [lodash.debounce] (external packages), both used with
    [{ leading: true, trailing: true }]: "at most one state application per
    window, but the last call within a window is never dropped."  A call
    outside a window runs at once and opens the window; a call inside a
    window is kept as the pending call, which runs when the window ends. *)
Record Limiter (A : Type) := mkLimiter {
  window_open : bool;
  pending : option A;
}.
Arguments mkLimiter {A} _ _.
Arguments window_open {A} _.
Arguments pending {A} _.

Definition limiter_call {A} (a : A) (l : Limiter A) : Limiter A * option A :=
  if window_open l
  then (mkLimiter true (Some a), None)
  else (mkLimiter true None, Some a).

Definition limiter_expire {A} (l : Limiter A) : Limiter A * option A :=
  (mkLimiter false None, pending l).

(** The [channel] prop: the SDK's channel object.  [countUnread] is a
    method of the SDK and stays a parameter of the object. *)
Record StreamChannel := mkStreamChannel {
  cid : string;
  disconnected : bool;
  read_events : bool;
  state : ChannelState.t;
  countUnread : Z → nat;
}.

Record Client := mkClient {
  userID : string;
  client_user : User.t;
}.

Record Document := mkDocument {
  title : string;
  hidden : bool;
}.

(** Everything a handler can read or write when it runs. *)
Record World := mkWorld {
  hooks : Hooks;
  channel : StreamChannel;
  client : Client;
  document : Document;
  originalTitle : string;
  lastRead : Z;
  now : Z;
  doSendMessageRequest : bool;
  copyState_limiter : Limiter unit;
  markRead_limiter : Limiter unit;
  loadMoreFinished_limiter : Limiter (bool * list Message.t);
  loadMoreThreadFinished_limiter : Limiter (bool * list Message.t);
  markRead_requests : nat;
}.

Definition with_hooks (f : Hooks → Hooks) (w : World) : World :=
  mkWorld (f (hooks w)) (channel w) (client w) (document w) (originalTitle w)
    (lastRead w) (now w) (doSendMessageRequest w) (copyState_limiter w)
    (markRead_limiter w) (loadMoreFinished_limiter w)
    (loadMoreThreadFinished_limiter w) (markRead_requests w).

Definition with_state (f : ChannelState.t → ChannelState.t) (w : World) : World :=
  mkWorld (hooks w)
    (mkStreamChannel (cid (channel w)) (disconnected (channel w))
       (read_events (channel w)) (f (state (channel w)))
       (countUnread (channel w)))
    (client w) (document w) (originalTitle w)
    (lastRead w) (now w) (doSendMessageRequest w) (copyState_limiter w)
    (markRead_limiter w) (loadMoreFinished_limiter w)
    (loadMoreThreadFinished_limiter w) (markRead_requests w).

Definition with_title (t : string) (w : World) : World :=
  mkWorld (hooks w) (channel w) (client w)
    (mkDocument t (hidden (document w))) (originalTitle w)
    (lastRead w) (now w) (doSendMessageRequest w) (copyState_limiter w)
    (markRead_limiter w) (loadMoreFinished_limiter w)
    (loadMoreThreadFinished_limiter w) (markRead_requests w).

Definition with_lastRead (t : Z) (w : World) : World :=
  mkWorld (hooks w) (channel w) (client w) (document w) (originalTitle w)
    t (now w) (doSendMessageRequest w) (copyState_limiter w)
    (markRead_limiter w) (loadMoreFinished_limiter w)
    (loadMoreThreadFinished_limiter w) (markRead_requests w).

Definition with_copyState_limiter (l : Limiter unit) (w : World) : World :=
  mkWorld (hooks w) (channel w) (client w) (document w) (originalTitle w)
    (lastRead w) (now w) (doSendMessageRequest w) l
    (markRead_limiter w) (loadMoreFinished_limiter w)
    (loadMoreThreadFinished_limiter w) (markRead_requests w).

Definition with_markRead_limiter (l : Limiter unit) (w : World) : World :=
  mkWorld (hooks w) (channel w) (client w) (document w) (originalTitle w)
    (lastRead w) (now w) (doSendMessageRequest w) (copyState_limiter w)
    l (loadMoreFinished_limiter w)
    (loadMoreThreadFinished_limiter w) (markRead_requests w).

Definition with_loadMoreFinished_limiter
    (l : Limiter (bool * list Message.t)) (w : World) : World :=
  mkWorld (hooks w) (channel w) (client w) (document w) (originalTitle w)
    (lastRead w) (now w) (doSendMessageRequest w) (copyState_limiter w)
    (markRead_limiter w) l
    (loadMoreThreadFinished_limiter w) (markRead_requests w).

Definition with_loadMoreThreadFinished_limiter
    (l : Limiter (bool * list Message.t)) (w : World) : World :=
  mkWorld (hooks w) (channel w) (client w) (document w) (originalTitle w)
    (lastRead w) (now w) (doSendMessageRequest w) (copyState_limiter w)
    (markRead_limiter w) (loadMoreFinished_limiter w)
    l (markRead_requests w).

(** [channel.markRead()] is fired without being awaited; the world counts
    the requests. *)
Definition request_markRead (w : World) : World :=
  mkWorld (hooks w) (channel w) (client w) (document w) (originalTitle w)
    (lastRead w) (now w) (doSendMessageRequest w) (copyState_limiter w)
    (markRead_limiter w) (loadMoreFinished_limiter w)
    (loadMoreThreadFinished_limiter w) (S (markRead_requests w)).

(** The setters of the [useState] cells. *)
Definition setLoadingMore (v : bool) : World → World :=
  with_hooks (λ h, mkHooks v (hasMore h) (messages h) (typing h) (watchers h)
    (watcherCount h) (read h) (thread h) (threadMessages h)
    (threadLoadingMore h) (threadHasMore h)).

Definition setHasMore (v : bool) : World → World :=
  with_hooks (λ h, mkHooks (loadingMore h) v (messages h) (typing h) (watchers h)
    (watcherCount h) (read h) (thread h) (threadMessages h)
    (threadLoadingMore h) (threadHasMore h)).

Definition setMessages (v : list Message.t) : World → World :=
  with_hooks (λ h, mkHooks (loadingMore h) (hasMore h) v (typing h) (watchers h)
    (watcherCount h) (read h) (thread h) (threadMessages h)
    (threadLoadingMore h) (threadHasMore h)).

Definition setTyping (v : gmap string string) : World → World :=
  with_hooks (λ h, mkHooks (loadingMore h) (hasMore h) (messages h) v (watchers h)
    (watcherCount h) (read h) (thread h) (threadMessages h)
    (threadLoadingMore h) (threadHasMore h)).

Definition setWatchers (v : gmap string User.t) : World → World :=
  with_hooks (λ h, mkHooks (loadingMore h) (hasMore h) (messages h) (typing h) v
    (watcherCount h) (read h) (thread h) (threadMessages h)
    (threadLoadingMore h) (threadHasMore h)).

Definition setWatcherCount (v : nat) : World → World :=
  with_hooks (λ h, mkHooks (loadingMore h) (hasMore h) (messages h) (typing h)
    (watchers h) v (read h) (thread h) (threadMessages h)
    (threadLoadingMore h) (threadHasMore h)).

Definition setRead (v : gmap string (Z * User.t)) : World → World :=
  with_hooks (λ h, mkHooks (loadingMore h) (hasMore h) (messages h) (typing h)
    (watchers h) (watcherCount h) v (thread h) (threadMessages h)
    (threadLoadingMore h) (threadHasMore h)).

Definition setThread (v : option Message.t) : World → World :=
  with_hooks (λ h, mkHooks (loadingMore h) (hasMore h) (messages h) (typing h)
    (watchers h) (watcherCount h) (read h) v (threadMessages h)
    (threadLoadingMore h) (threadHasMore h)).

Definition setThreadMessages (v : list Message.t) : World → World :=
  with_hooks (λ h, mkHooks (loadingMore h) (hasMore h) (messages h) (typing h)
    (watchers h) (watcherCount h) (read h) (thread h) v
    (threadLoadingMore h) (threadHasMore h)).

Definition setThreadLoadingMore (v : bool) : World → World :=
  with_hooks (λ h, mkHooks (loadingMore h) (hasMore h) (messages h) (typing h)
    (watchers h) (watcherCount h) (read h) (thread h) (threadMessages h)
    v (threadHasMore h)).

Definition setThreadHasMore (v : bool) : World → World :=
  with_hooks (λ h, mkHooks (loadingMore h) (hasMore h) (messages h) (typing h)
    (watchers h) (watcherCount h) (read h) (thread h) (threadMessages h)
    (threadLoadingMore h) v).

(** [channel.state.threads[key] || []] read from the live store. *)
Definition threads_at (key : option string) (w : World) : list Message.t :=
  ChannelState.thread_of (state (channel w)) key.

(** ** Backend calls and asynchronous actions *)

(** The [messageData] object that [doSendMessage] sends. *)
Record MessageData := mkMessageData {
  data_text : string;
  data_attachments : list string;
  data_mentioned_users : list string;
  data_id : string;
  data_parent_id : option string;
}.

Inductive BackendCall :=
| Query (limit : nat) (id_lt : option string)
| GetReplies (parentID : string) (limit : nat) (id_lt : option string)
| SendMessage (data : MessageData)
| DoSendMessageRequest (channel_cid : string) (data : MessageData).

(** What a backend promise resolves to: an object that may carry a page
    ([messages]) or a single message ([message]). *)
Record Response := mkResponse {
  response_messages : option (list Message.t);
  response_message : option Message.t;
}.

Inductive Reply :=
| Resolved (r : Response)
| Rejected.

(** An [async] function up to its single [await]: it has returned, it has
    thrown (its promise rejects), or it waits for the backend.  The
    continuation of [Await] receives the backend's reply and the world as
    it is when the reply arrives. *)
Inductive Proc :=
| Return (w : World)
| Throw (w : World)
| Await (w : World) (call : BackendCall) (k : Reply → World → Proc).

(** The backend call on which an action is suspended, if any. *)
Definition started (p : Proc) : option BackendCall :=
  match p with
  | Await _ c _ => Some c
  | _ => None
  end.

(** The world an action leaves behind when it returns, throws or suspends. *)
Definition world_of (p : Proc) : World :=
  match p with
  | Return w | Throw w | Await w _ _ => w
  end.

(** The backend answers [r] while the world is [w']. *)
Definition resume (p : Proc) (r : Reply) (w' : World) : Proc :=
  match p with
  | Await _ _ k => k r w'
  | _ => p
  end.

(** ** Event handling *)

(** The function wrapped by [throttledCopyStateFromChannel]. *)
Definition copyStateFromChannel (w : World) : World :=
  let w := setMessages (ChannelState.messages (state (channel w))) w in
  let w := setWatchers (ChannelState.watchers (state (channel w))) w in
  let w := setRead (ChannelState.read (state (channel w))) w in
  let w := setTyping (ChannelState.typing (state (channel w))) w in
  setWatcherCount (ChannelState.watcher_count (state (channel w))) w.

Definition throttledCopyStateFromChannel (w : World) : World :=
  let '(l, run) := limiter_call () (copyState_limiter w) in
  let w := with_copyState_limiter l w in
  match run with
  | Some _ => copyStateFromChannel w
  | None => w
  end.

Definition markRead (w : World) : World :=
  if disconnected (channel w) || negb (read_events (channel w)) then w
  else
    let w := with_lastRead (now w) w in
    let w := request_markRead w in
    if truthy (originalTitle w) then with_title (originalTitle w) w else w.

Definition markReadThrottled (w : World) : World :=
  let '(l, run) := limiter_call () (markRead_limiter w) in
  let w := with_markRead_limiter l w in
  match run with
  | Some _ => markRead w
  | None => w
  end.

Module Event.
Record t := mk {
  type : string;
  message : option Message.t;
}.
End Event.

(** [mainChannelUpdated] of [handleEvent]: a reply that is not shown in
    the channel does not count for the main list. *)
Definition mainChannelUpdated (m : Message.t) : bool :=
  negb (truthy_opt (Message.parent_id m) && negb (Message.show_in_channel m)).

(** The document title of a backgrounded channel. *)
Definition unread_title (unread : nat) (original : string) : string :=
  "(" ++ pretty unread ++ ") " ++ original.

(** The part of [handleEvent] that runs for a ['message.new'] event. *)
Definition on_message_new (m : Message.t) (w : World) : World :=
  if mainChannelUpdated m
     && bool_decide (User.id (Message.user m) ≠ userID (client w))
  then
    if negb (hidden (document w)) then markReadThrottled w
    else
      let unread := countUnread (channel w) (lastRead w) in
      with_title (unread_title unread (originalTitle w)) w
  else w.

(** The part of [handleEvent] that runs while a thread is open. *)
Definition refresh_thread (cl : Hooks) (e : Event.t) (w : World) : World :=
  match thread cl with
  | Some t =>
      let w := setThreadMessages (threads_at (Some (Message.id t)) w) w in
      match Event.message e with
      | Some m =>
          if bool_decide (Message.id m = Message.id t)
          then setThread (Some (ChannelState.messageToImmutable m)) w
          else w
      | None => w
      end
  | None => w
  end.

(** [handleEvent]; reading [e.message.parent_id] of a ['message.new']
    event without a message is a [TypeError]. *)
Definition handleEvent (cl : Hooks) (e : Event.t) (w : World) : Proc :=
  let w := refresh_thread cl e w in
  if bool_decide (Event.type e = "message.new") then
    match Event.message e with
    | Some m => Return (throttledCopyStateFromChannel (on_message_new m w))
    | None => Throw w
    end
  else Return (throttledCopyStateFromChannel w).

(** ** Thread projection *)

(** The loop [for (let i = n - 1; i >= 0; i -= 1)] of the effect: [n]
    indices are still to be visited, from [n - 1] down to [0]. *)
Fixpoint scan_down (msgs : list Message.t) (tid : string) (n : nat)
  : option Message.t :=
  match n with
  | O => None
  | S i =>
      match msgs !! i with
      | Some m =>
          if bool_decide (Message.id m = tid) then Some m
          else scan_down msgs tid i
      | None => None
      end
  end.

(** The effect with dependencies [[thread, messages]]. *)
Definition threadEffect (cl : Hooks) (w : World) : World :=
  match thread cl with
  | Some t =>
      match scan_down (messages cl) (Message.id t) (length (messages cl)) with
      | Some m => setThread (Some m) w
      | None => w
      end
  | None => w
  end.

(** ** Pagination *)

(** The function wrapped by the debounced [loadMoreFinished]. *)
Definition loadMoreFinished_body (a : bool * list Message.t) (w : World) : World :=
  let w := setLoadingMore false w in
  let w := setHasMore a.1 w in
  setMessages a.2 w.

Definition loadMoreFinished (a : bool * list Message.t) (w : World) : World :=
  let '(l, run) := limiter_call a (loadMoreFinished_limiter w) in
  let w := with_loadMoreFinished_limiter l w in
  match run with
  | Some a => loadMoreFinished_body a w
  | None => w
  end.

(** The debounce window of [loadMoreFinished] ends. *)
Definition loadMoreFinished_expire (w : World) : World :=
  let '(l, run) := limiter_expire (loadMoreFinished_limiter w) in
  let w := with_loadMoreFinished_limiter l w in
  match run with
  | Some a => loadMoreFinished_body a w
  | None => w
  end.

(** [oldestMessage?.status !== 'received'] *)
Definition not_received (oldestMessage : option Message.t) : bool :=
  bool_decide (Message.status <$> oldestMessage ≠ Some received).

Definition loadMore (cl : Hooks) (limit : option nat) (w : World) : Proc :=
  let oldestMessage := messages cl !! 0%nat in
  if loadingMore cl || not_received oldestMessage then Return w
  else
    let w := setLoadingMore true w in
    let oldestID := oldestMessage ≫= λ m, or_null (Message.id m) in
    let perPage := default 100%nat limit in
    Await w (Query perPage oldestID) (λ r w,
      match r with
      | Rejected => Return (setLoadingMore false w)
      | Resolved queryResponse =>
          match response_messages queryResponse with
          | Some page =>
              let hasMoreMessages := bool_decide (length page = perPage) in
              Return (loadMoreFinished
                        (hasMoreMessages, ChannelState.messages (state (channel w))) w)
          | None => Throw w
          end
      end).

(** The function wrapped by the debounced [loadMoreThreadFinished]. *)
Definition loadMoreThreadFinished_body (a : bool * list Message.t) (w : World) : World :=
  let w := setThreadHasMore a.1 w in
  let w := setThreadMessages a.2 w in
  setThreadLoadingMore false w.

Definition loadMoreThreadFinished (a : bool * list Message.t) (w : World) : World :=
  let '(l, run) := limiter_call a (loadMoreThreadFinished_limiter w) in
  let w := with_loadMoreThreadFinished_limiter l w in
  match run with
  | Some a => loadMoreThreadFinished_body a w
  | None => w
  end.

Definition loadMoreThreadFinished_expire (w : World) : World :=
  let '(l, run) := limiter_expire (loadMoreThreadFinished_limiter w) in
  let w := with_loadMoreThreadFinished_limiter l w in
  match run with
  | Some a => loadMoreThreadFinished_body a w
  | None => w
  end.

(** The page size of [loadMoreThread]. *)
Definition thread_limit : nat := 50.

Definition loadMoreThread (cl : Hooks) (w : World) : Proc :=
  match threadLoadingMore cl, thread cl with
  | false, Some t =>
      let w := setThreadLoadingMore true w in
      let parentID := Message.id t in
      let oldMessages := threads_at (Some parentID) w in
      let oldestMessageID := Message.id <$> oldMessages !! 0%nat in
      Await w (GetReplies parentID thread_limit oldestMessageID) (λ r w,
        match r with
        | Rejected => Throw w
        | Resolved queryResponse =>
            match response_messages queryResponse with
            | Some page =>
                let threadHasMoreMessages :=
                  bool_decide (length page = thread_limit) in
                let newThreadMessages := threads_at (Some parentID) w in
                Return (loadMoreThreadFinished
                          (threadHasMoreMessages, newThreadMessages) w)
            | None => Throw w
            end
        end)
  | _, _ => Return w
  end.

(** ** Message actions *)

(** [updateMessage]: [cl] is the render whose [thread] the callback
    closed over. *)
Definition updateMessage (cl : Hooks) (updatedMessage : Message.t) (w : World)
  : World :=
  let w := with_state (ChannelState.addMessageSorted updatedMessage) w in
  let w :=
    match thread cl with
    | Some _ =>
        if truthy_opt (Message.parent_id updatedMessage)
        then setThreadMessages (threads_at (Message.parent_id updatedMessage) w) w
        else w
    | None => w
    end in
  setMessages (ChannelState.messages (state (channel w))) w.

Definition messageData_of (message : Message.t) : MessageData :=
  {| data_text := Message.text message;
     data_attachments := Message.attachments message;
     data_mentioned_users := Message.mentioned_users message;
     data_id := Message.id message;
     data_parent_id := Message.parent_id message |}.

(** [doSendMessage]: the [try] block covers the request and the update
    with the answer; the [catch] block stores the message as failed. *)
Definition doSendMessage (cl : Hooks) (message : Message.t) (w : World) : Proc :=
  let messageData := messageData_of message in
  let call :=
    if doSendMessageRequest w
    then DoSendMessageRequest (cid (channel w)) messageData
    else SendMessage messageData in
  Await w call (λ r w,
    match r with
    | Resolved messageResponse =>
        match response_message messageResponse with
        | Some m => Return (updateMessage cl (Message.with_status m received) w)
        | None => Return w
        end
    | Rejected => Return (updateMessage cl (Message.with_status message failed) w)
    end).

(** [createMessagePreview]; [uuid] is the value of [uuidv4()] and the
    creation time is the clock of the world. *)
Definition createMessagePreview (w : World) (text : string)
    (attachments : list string) (parent : option Message.t)
    (mentioned_users : list string) (uuid : string) : Message.t :=
  let clientSideID := userID (client w) ++ "-" ++ uuid in
  {| Message.id := clientSideID;
     Message.text := text;
     Message.html := text;
     Message.type := "regular";
     Message.status := sending;
     Message.user := client_user (client w);
     Message.created_at := now w;
     Message.attachments := attachments;
     Message.mentioned_users := mentioned_users;
     Message.reactions := [];
     Message.parent_id := parent ≫= λ p, or_null (Message.id p);
     Message.show_in_channel := false |}.

(** The argument of [sendMessage]; [attachments] and [mentioned_users]
    default to the empty array. *)
Record Draft := mkDraft {
  draft_text : string;
  draft_attachments : option (list string);
  draft_mentioned_users : option (list string);
  draft_parent : option Message.t;
}.

Definition preview_of (w : World) (d : Draft) (uuid : string) : Message.t :=
  createMessagePreview w (draft_text d) (default [] (draft_attachments d))
    (draft_parent d) (default [] (draft_mentioned_users d)) uuid.

Definition sendMessage (cl : Hooks) (d : Draft) (uuid : string) (w : World)
  : Proc :=
  let w := with_state ChannelState.filterErrorMessages w in
  let messagePreview := preview_of w d uuid in
  let w := updateMessage cl messagePreview w in
  doSendMessage cl messagePreview w.

Definition retrySendMessage (cl : Hooks) (message : Message.t) (w : World)
  : Proc :=
  let w := updateMessage cl (Message.with_status message sending) w in
  doSendMessage cl message w.

Definition removeMessage (message : Message.t) (w : World) : World :=
  let w := with_state (ChannelState.removeMessage message) w in
  let w := setMessages (ChannelState.messages (state (channel w))) w in
  setThreadMessages (threads_at (Message.parent_id message) w) w.

Definition openThread (message : Message.t) (w : World) : World :=
  let w := setThread (Some message) w in
  setThreadMessages (threads_at (Some (Message.id message)) w) w.

Definition closeThread (w : World) : World :=
  let w := setThread None w in
  setThreadMessages [] w.

(** ** The status line of the team message ([MessageTeamStatus]) *)

Module MessageTeam.
Record Props := mkProps {
  isMyMessage : bool;
  message : option Message.t;
  readBy : option (list User.t);
  threadList : bool;
  lastReceivedId : option string;
  client_user : option User.t;
}.

(** What the component renders. *)
Inductive Rendered :=
| Nothing
| Sending
| ReadStatus (lastReadUser : option User.t) (count : option nat)
| Delivered.

(** The truth value of [justReadByMe]. *)
Definition justReadByMe (p : Props) : bool :=
  match readBy p, client_user p with
  | Some rb, Some me =>
      bool_decide (length rb = 1%nat)
      && match rb !! 0%nat with
         | Some u => bool_decide (User.id u = User.id me)
         | None => false
         end
  | _, _ => false
  end.

(** [readBy.filter((item) => item && client?.user && item.id !== client.user.id)[0]] *)
Definition lastReadUser (p : Props) (rb : list User.t) : option User.t :=
  match client_user p with
  | Some me => filter (λ item, User.id item ≠ User.id me) rb !! 0%nat
  | None => None
  end.

(** The guard of the read-status branch:
    [readBy && readBy.length !== 0 && !threadList && !justReadByMe]. *)
Definition shows_read_status (p : Props) : bool :=
  match readBy p with
  | Some rb =>
      bool_decide (length rb ≠ 0%nat) && negb (threadList p)
      && negb (justReadByMe p)
  | None => false
  end.

(** The guard of the delivered branch. *)
Definition shows_delivered (p : Props) : bool :=
  match message p with
  | Some m =>
      bool_decide (Message.status m = received)
      && bool_decide (Some (Message.id m) = lastReceivedId p)
      && negb (threadList p)
  | None => false
  end.

Definition MessageTeamStatus (p : Props) : Rendered :=
  if negb (isMyMessage p)
     || bool_decide (Message.type <$> message p = Some "error")
  then Nothing
  else if bool_decide (Message.status <$> message p = Some sending)
  then Sending
  else if shows_read_status p
  then
    let rb := default [] (readBy p) in
    ReadStatus (lastReadUser p rb)
      (if bool_decide (1 < length rb - 1)%nat
       then Some (length rb - 1)%nat else None)
  else if shows_delivered p then Delivered
  else Nothing.
End MessageTeam.

(** ** Sample data used to run the definitions *)

Definition alice : User.t := User.mk "alice" "Alice" "alice.png".
Definition bob : User.t := User.mk "bob" "Bob" "bob.png".

Definition sample_message (i txt : string) (st : Status) (u : User.t) (at_ : Z)
    (parent : option string) : Message.t :=
  Message.mk i txt txt "regular" st u at_ [] [] [] parent false.

Definition m1 : Message.t := sample_message "m1" "hello" received bob 10 None.
Definition m2 : Message.t := sample_message "m2" "lost" failed alice 20 None.
Definition r1 : Message.t := sample_message "r1" "reply" received bob 30 (Some "m1").
Definition q1 : Message.t := sample_message "q1" "other" received bob 40 (Some "m2").

(** The authoritative edit of [q1], a reply in the thread of [m2]. *)
Definition q1_edited : Message.t :=
  sample_message "q1" "edited" received bob 40 (Some "m2").

(** The authoritative edit of the thread root [m1]. *)
Definition m1_edited : Message.t :=
  sample_message "m1" "hello, world" received bob 10 None.

Definition idle {A} : Limiter A := mkLimiter false None.

Definition sample_store (ms : list Message.t) (ths : gmap string (list Message.t))
  : ChannelState.t :=
  ChannelState.mk ms ths ∅ ∅ ∅ ∅ 0.

Definition sample_hooks (ms : list Message.t) (th : option Message.t)
    (tms : list Message.t) : Hooks :=
  mkHooks false false ms ∅ ∅ 0 ∅ th tms false false.

Definition sample_world (h : Hooks) (st : ChannelState.t) (hid : bool) : World :=
  mkWorld h (mkStreamChannel "messaging:general" false true st (λ _, 3%nat))
    (mkClient "alice" alice) (mkDocument "Chat" hid) "Chat" 0 100 false
    idle idle idle idle 0.

(** A channel with two messages, the second one failed, and no open thread. *)
Definition world_main : World :=
  sample_world (sample_hooks [m1; m2] None [])
    (sample_store [m1; m2] {["m1" := [r1]]}) false.


(** A channel whose thread on [m1] is open and has no local replies yet. *)
Definition world_thread_empty : World :=
  sample_world (sample_hooks [m1] (Some m1) []) (sample_store [m1] ∅) false.

(** A channel whose thread on [m1] is open and shows its reply [r1]. *)
Definition world_thread : World :=
  sample_world (sample_hooks [m1; m2] (Some m1) [r1])
    (sample_store [m1; m2] {["m1" := [r1]; "m2" := [q1]]}) false.

(** ** Predicates used by the statements *)

(** The backend call [doSendMessage] makes for [message] in world [w]. *)
Definition send_call (w : World) (message : Message.t) : BackendCall :=
  if doSendMessageRequest w
  then DoSendMessageRequest (cid (channel w)) (messageData_of message)
  else SendMessage (messageData_of message).



(** No entry of the sequence is in [failed] status. *)
Definition no_failed (l : list Message.t) : Prop :=
  ∀ m, m ∈ l → Message.status m ≠ failed.

(** What mark-read and the title badge can change. *)
Definition read_side (w : World) : nat * Limiter unit * Z * string :=
  (markRead_requests w, markRead_limiter w, lastRead w, title (document w)).

(** The thread of [m1] is open and the main sequence has just received the
    edit of [m1]. *)
Definition world_root_edited : World :=
  sample_world (sample_hooks [m1_edited; m2] (Some m1) [r1])
    (sample_store [m1_edited; m2] {["m1" := [r1]]}) false.

(** The thread of [m1] is open and [m1] is not in the main sequence. *)
Definition world_root_paged_out : World :=
  sample_world (sample_hooks [m2] (Some m1) [r1])
    (sample_store [m2] {["m1" := [r1]]}) false.

(** The same channel in a backgrounded document. *)
Definition world_background : World :=
  sample_world (sample_hooks [m1; m2] None [])
    (sample_store [m1; m2] {["m1" := [r1]]}) true.

(** A new message of [bob] arrives in the main channel. *)
Definition new_from_bob : Event.t :=
  Event.mk "message.new" (Some (sample_message "m3" "news" received bob 50 None)).

(** A message of the local user that nobody has read yet, as the status
    line of the team layout receives it. *)
Definition unread_own_message : MessageTeam.Props :=
  MessageTeam.mkProps true
    (Some (sample_message "m9" "mine" received alice 60 None))
    (Some []) false (Some "m9") (Some alice).

(** The same message read by the local user and by [bob]. *)
Definition own_message_read_by_two : MessageTeam.Props :=
  MessageTeam.mkProps true
    (Some (sample_message "m9" "mine" received alice 60 None))
    (Some [alice; bob]) false (Some "m9") (Some alice).

(** ** The rest of the component's reactions *)

(** The throttle window of [throttledCopyStateFromChannel] ends. *)
Definition throttledCopyStateFromChannel_expire (w : World) : World :=
  let '(l, run) := limiter_expire (copyState_limiter w) in
  let w := with_copyState_limiter l w in
  match run with
  | Some _ => copyStateFromChannel w
  | None => w
  end.

(** The browser shows or hides the document. *)
Definition with_hidden (h : bool) (w : World) : World :=
  mkWorld (hooks w) (channel w) (client w)
    (mkDocument (title (document w)) h) (originalTitle w)
    (lastRead w) (now w) (doSendMessageRequest w) (copyState_limiter w)
    (markRead_limiter w) (loadMoreFinished_limiter w)
    (loadMoreThreadFinished_limiter w) (markRead_requests w).

(** [onVisibilityChange], the listener of ['visibilitychange']. *)
Definition onVisibilityChange (w : World) : World :=
  if negb (hidden (document w)) then markRead w else w.

(** What pagination owns: its flags, its debouncers and the channel
    object with its store. *)
Definition pagination_side (w : World)
  : bool * bool * bool * bool * Limiter (bool * list Message.t)
    * Limiter (bool * list Message.t) * StreamChannel :=
  (loadingMore (hooks w), hasMore (hooks w), threadLoadingMore (hooks w),
   threadHasMore (hooks w), loadMoreFinished_limiter w,
   loadMoreThreadFinished_limiter w, channel w).

(** The five cells that [throttledCopyStateFromChannel] writes show what
    the store [s] holds. *)
Definition shows_store (s : ChannelState.t) (h : Hooks) : Prop :=
  messages h = ChannelState.messages s
  ∧ watchers h = ChannelState.watchers s
  ∧ read h = ChannelState.read s
  ∧ typing h = ChannelState.typing s
  ∧ watcherCount h = ChannelState.watcher_count s.

(** ** Mounting: the effect that watches the channel *)

(** The component with the cells and subscriptions of its mount effect:
    the [error], [loading] and [members] cells, whether the three
    listeners of the effect are registered (['visibilitychange'] on the
    document, ['connection.recovered'] on the client, the channel's own
    events), and the two variables [errored] and [done] that the effect
    shares with its cleanup. *)
Record Mounted := mkMounted {
  world : World;
  error : option string;
  loading : bool;
  members : gmap string User.t;
  listening : bool;
  errored : bool;
  done_ : bool;
}.

(** A fresh run of the effect: [errored] and [done] start false. *)
Definition effect_run (m : Mounted) : Mounted :=
  mkMounted (world m) (error m) (loading m) (members m) (listening m)
    false false.

Definition in_world (f : World → World) (m : Mounted) : Mounted :=
  mkMounted (f (world m)) (error m) (loading m) (members m) (listening m)
    (errored m) (done_ m).

Definition with_originalTitle (t : string) (w : World) : World :=
  mkWorld (hooks w) (channel w) (client w) (document w) t
    (lastRead w) (now w) (doSendMessageRequest w) (copyState_limiter w)
    (markRead_limiter w) (loadMoreFinished_limiter w)
    (loadMoreThreadFinished_limiter w) (markRead_requests w).

(** The [catch] block around [channel.watch()]. *)
Definition watch_failed (e : string) (m : Mounted) : Mounted :=
  mkMounted (world m) (Some e) (loading m) (members m) (listening m)
    true (done_ m).

(** The effect from [done = true] on; [unread] is the value of
    [channel.countUnread()] at that moment. *)
Definition after_watch (unread : nat) (m : Mounted) : Mounted :=
  let m := mkMounted (world m) (error m) (loading m) (members m)
             (listening m) (errored m) true in
  let m := in_world (λ w, with_originalTitle (title (document w)) w) m in
  if errored m then m
  else
    let m := in_world (λ w, setMessages (ChannelState.messages (state (channel w))) w) m in
    let m := in_world (λ w, setRead (ChannelState.read (state (channel w))) w) m in
    let m := in_world (λ w, setWatchers (ChannelState.watchers (state (channel w))) w) m in
    let m := mkMounted (world m) (error m) (loading m)
               (ChannelState.members (state (channel (world m))))
               (listening m) (errored m) (done_ m) in
    let m := in_world (λ w, setWatcherCount
                              (ChannelState.watcher_count (state (channel w))) w) m in
    let m := mkMounted (world m) (error m) false (members m)
               (listening m) (errored m) (done_ m) in
    let m := if bool_decide (0 < unread)%nat then in_world request_markRead m
             else m in
    mkMounted (world m) (error m) (loading m) (members m) true
      (errored m) (done_ m).

(** The asynchronous body of the effect up to its [await]: with an
    initialized channel it runs to its end ([inl]); otherwise it waits for
    [channel.watch()] ([inr]). *)
Definition mount_effect (initialized : bool) (unread : nat) (m : Mounted)
  : Mounted + Mounted :=
  let m := effect_run m in
  if initialized then inl (after_watch unread m) else inr m.

(** [channel.watch()] settles while the component is [m]: it throws [e]
    ([Some e]) or resolves ([None]). *)
Definition watch_settled (thrown : option string) (unread : nat) (m : Mounted)
  : Mounted :=
  match thrown with
  | Some e => after_watch unread (watch_failed e m)
  | None => after_watch unread m
  end.

(** The cleanup the effect returns. *)
Definition mount_cleanup (m : Mounted) : Mounted :=
  if errored m || negb (done_ m) then m
  else mkMounted (world m) (error m) (loading m) (members m) false
         (errored m) (done_ m).

(** What [ChannelInner] renders inside its container. *)
Inductive Core :=
| LoadingErrorIndicator (e : string)
| LoadingIndicator
| ChannelMissing
| ContextProvider.

(** The choice of [core]; [has_watch] is the truth of
    [props.channel?.watch]. *)
Definition render_core (has_watch : bool) (m : Mounted) : Core :=
  match error m with
  | Some e => LoadingErrorIndicator e
  | None =>
      if loading m then LoadingIndicator
      else if negb has_watch then ChannelMissing
      else ContextProvider
  end.

(** A component that has just been created for the sample channel. *)
Definition fresh_mount (w : World) : Mounted :=
  mkMounted w None true ∅ false false false.

(** ** The team message layout ([UnMemoizedMessageTeam]) *)

Module MessageTeamLayout.
(** The props and hook results that decide what the layout renders.  The
    message fields that [Message.t] does not carry ([deleted_at],
    [pinned], [latest_reactions], [mml], whether [attachments] is defined)
    are given beside the message. *)
Record Props := mkProps {
  status_props : MessageTeam.Props;
  deleted_at : option string;
  pinned : bool;
  latest_reactions : option (list string);
  mml : option string;
  attachments_defined : bool;
  editing : bool;
  initialMessage : bool;
  groupStyles : option (list string);
  replies_disabled : bool;
  isReactionEnabled : bool;
  showDetailedReactions : bool;
  messageActions : option (list string);
  retry : bool;
  Attachment : bool;
  unsafeHTML : bool;
}.

Definition message (p : Props) : option Message.t :=
  MessageTeam.message (status_props p).

Definition threadList (p : Props) : bool :=
  MessageTeam.threadList (status_props p).

(** [groupStyles = ['single']] by default; [firstGroupStyle] is its first
    entry. *)
Definition firstGroupStyle (p : Props) : option string :=
  default ["single"] (groupStyles p) !! 0%nat.

(** [firstGroupStyle === 'top' || firstGroupStyle === 'single'] *)
Definition top_or_single (p : Props) : bool :=
  bool_decide (firstGroupStyle p = Some "top")
  || bool_decide (firstGroupStyle p = Some "single").

Definition message_is (f : Message.t → bool) (p : Props) : bool :=
  match message p with
  | Some m => f m
  | None => false
  end.

Definition text_empty (m : Message.t) : bool :=
  bool_decide (Message.text m = "").

(** [message?.latest_reactions && message.latest_reactions.length !== 0] *)
Definition has_reactions (p : Props) : bool :=
  match message p, latest_reactions p with
  | Some _, Some l => bool_decide (length l ≠ 0%nat)
  | _, _ => false
  end.

(** What [MessageTeamAttachments] renders: the attachments, when the
    message has some and the [Attachment] component is not [null] (a prop
    that is left out defaults to the built-in component). *)
Definition MessageTeamAttachments (p : Props) : bool :=
  message_is (λ _, true) p && attachments_defined p && Attachment p.

(** The guard of the action bar. *)
Definition shows_actions (p : Props) : bool :=
  negb (initialMessage p)
  && message_is (λ m,
       negb (bool_decide (Message.status m = sending))
       && negb (bool_decide (Message.status m = failed))
       && negb (bool_decide (Message.type m = "system"))
       && negb (bool_decide (Message.type m = "ephemeral"))
       && negb (bool_decide (Message.type m = "error"))) p.

(** The conditional parts of the full layout. *)
Record Parts := mkParts {
  pin_indicator : bool;
  avatar : bool;
  author : bool;
  error_header : bool;
  reaction_selector : bool;
  reaction_icon : bool;
  thread_icon : bool;
  message_actions : bool;
  text_span : bool;
  raw_html : bool;
  mml_block : bool;
  attachments_in_content : bool;
  reactions_in_content : bool;
  failed_button : bool;
  status_line : MessageTeam.Rendered;
  attachments_below : bool;
  reactions_below : bool;
  replies_button : bool;
}.

Inductive Rendered :=
| Nothing
| Deleted
| EditForm (avatar : bool)
| Layout (parts : Parts).

Definition UnMemoizedMessageTeam (p : Props) : Rendered :=
  if message_is (λ m, bool_decide (Message.type m = "message.read")) p
  then Nothing
  else if message_is (λ _, true) p && bool_decide (deleted_at p ≠ None)
  then Deleted
  else if editing p then EditForm (top_or_single p)
  else
    Layout
      {| pin_indicator := message_is (λ _, true) p && pinned p;
         avatar := top_or_single p || initialMessage p;
         author :=
           message_is (λ _, true) p && (top_or_single p || initialMessage p);
         error_header :=
           message_is (λ m, bool_decide (Message.type m = "error")) p
           && (top_or_single p || initialMessage p);
         reaction_selector := shows_actions p && showDetailedReactions p;
         reaction_icon := shows_actions p && isReactionEnabled p;
         thread_icon :=
           shows_actions p && negb (threadList p) && negb (replies_disabled p);
         message_actions :=
           shows_actions p
           && match messageActions p with
              | Some l => bool_decide (0 < length l)%nat
              | None => false
              end;
         text_span := message_is (λ _, true) p;
         raw_html :=
           unsafeHTML p && message_is (λ m, truthy (Message.html m)) p;
         mml_block := message_is (λ _, true) p && bool_decide (mml p ≠ None);
         attachments_in_content :=
           message_is text_empty p && MessageTeamAttachments p;
         reactions_in_content :=
           has_reactions p && message_is (λ m, negb (text_empty m)) p
           && isReactionEnabled p;
         failed_button :=
           message_is (λ m, bool_decide (Message.status m = failed)) p;
         status_line := MessageTeam.MessageTeamStatus (status_props p);
         attachments_below :=
           message_is (λ m, negb (text_empty m)) p && attachments_defined p
           && MessageTeamAttachments p;
         reactions_below :=
           has_reactions p && message_is text_empty p && isReactionEnabled p;
         replies_button := negb (threadList p) && message_is (λ _, true) p |}.

(** The click handler of the failed button: the message it retries. *)
Definition failed_button_click (p : Props) : option Message.t :=
  match message p with
  | Some m =>
      if bool_decide (Message.status m = failed) && retry p then Some m
      else None
  | None => None
  end.
End MessageTeamLayout.

(** A failed message of the local user with text and a reaction. *)
Definition failed_own_message : MessageTeamLayout.Props :=
  MessageTeamLayout.mkProps
    (MessageTeam.mkProps true
       (Some (sample_message "m8" "oops" failed alice 70 None))
       None false None (Some alice))
    None false (Some ["like"]) None true false false None false true true
    (Some ["edit"; "delete"]) true true false.

(** A received reply of the local user, rendered in a thread list and
    read by [bob]. *)
Definition received_reply_in_thread_list : MessageTeamLayout.Props :=
  MessageTeamLayout.mkProps
    (MessageTeam.mkProps true
       (Some (sample_message "r7" "sure" received alice 80 (Some "m1")))
       (Some [bob]) true (Some "r7") (Some alice))
    None false None None false false false None false true false
    (Some ["edit"]) true true false.

(** ** The link card of an attachment ([Card]) *)

Module Card.
(** The case folding of the regular expression flag [i], on the ASCII
    letters. *)
Definition lower (c : Ascii.ascii) : Ascii.ascii :=
  let n := Ascii.nat_of_ascii c in
  if (65 <=? n)%nat && (n <=? 90)%nat then Ascii.ascii_of_nat (n + 32) else c.

(** What is left of [s] after the prefix [pat], matched without regard to
    case; [None] when [s] does not start with [pat]. *)
Fixpoint prefix_ci (pat s : string) : option string :=
  match pat, s with
  | EmptyString, _ => Some s
  | String a pat', String c s' =>
      if Ascii.eqb (lower a) (lower c) then prefix_ci pat' s' else None
  | String _ _, EmptyString => None
  end.

(** [(?:https?:\/\/)?] at the start of the string. *)
Definition strip_scheme (s : string) : string :=
  match prefix_ci "https://" s with
  | Some r => r
  | None => default s (prefix_ci "http://" s)
  end.

(** [(?:www\.)?] at the position where the scheme ended. *)
Definition strip_www (s : string) : string :=
  default s (prefix_ci "www." s).

(** The character [/]. *)
Definition slash : Ascii.ascii := Eval cbv in Ascii.ascii_of_nat 47.

(** [split('/')[0]]: the text before the first slash. *)
Fixpoint before_slash (s : string) : string :=
  match s with
  | EmptyString => EmptyString
  | String c s' =>
      if Ascii.eqb c slash then EmptyString else String c (before_slash s')
  end.

Definition trimUrl (url : option string) : option string :=
  match url with
  | Some url => Some (before_slash (strip_www (strip_scheme url)))
  | None => None
  end.

(** [a || b] on optional strings. *)
Definition js_or (a b : option string) : option string :=
  if truthy_opt a then a else b.

Record GiphyVersion := mkGiphyVersion {
  url : string;
  height : string;
  width : string;
}.

(** The attachment a card is rendered from, with the two settings read
    from the contexts. *)
Record Props := mkProps {
  asset_url : option string;
  author_name : option string;
  giphy : option (gmap string GiphyVersion);
  image_url : option string;
  og_scrape_url : option string;
  text : option string;
  thumb_url : option string;
  title : option string;
  title_link : option string;
  type : option string;
  giphyVersion : string;
  themeVersion : string;
}.

(** The image of the card and its dimensions: the thumbnail or the image,
    replaced for a giphy by the configured version of it.  Reading a
    version that the giphy does not have is a [TypeError] ([None]). *)
Definition card_image (p : Props)
  : option (option string * option (string * string)) :=
  let image := js_or (thumb_url p) (image_url p) in
  match giphy p with
  | Some g =>
      if bool_decide (type p = Some "giphy") then
        match g !! giphyVersion p with
        | Some v => Some (Some (url v), Some (height v, width v))
        | None => None
        end
      else Some (image, None)
  | None => Some (image, None)
  end.

(** The link of a card: its target and the text shown for it. *)
Record Link := mkLink {
  href : option string;
  label : option string;
}.

Inductive Visual :=
| NoVisual
| VideoPlayer (url : string)
| Image (src : string) (alt : string) (dimensions : option (string * string)).

Inductive Rendered :=
| TypeError
| UnableToRenderCard (type : option string)
| Null
| CardV1View (image : option string) (dimensions : option (string * string))
    (title text : option string) (link : Link)
| CardV2View (header : Visual) (audio : bool) (source : option Link)
    (title text : option string).

Definition shown (o : option string) : option string :=
  if truthy_opt o then o else None.

Definition CardV1 (p : Props) : Rendered :=
  match card_image p with
  | None => TypeError
  | Some (image, dimensions) =>
      if negb (truthy_opt (title p)) && negb (truthy_opt (title_link p))
         && negb (truthy_opt image)
      then UnableToRenderCard (type p)
      else if negb (truthy_opt (title_link p))
              && negb (truthy_opt (og_scrape_url p))
      then Null
      else
        CardV1View (shown image) dimensions (shown (title p)) (shown (text p))
          {| href := js_or (title_link p) (og_scrape_url p);
             label := trimUrl (js_or (title_link p) (og_scrape_url p)) |}
  end.

(** [SourceLink]: the author's name, or else the trimmed url. *)
Definition SourceLink (author : option string) (url : option string) : Link :=
  {| href := url; label := js_or author (trimUrl url) |}.

Definition CardHeader (p : Props) (image : option string)
    (dimensions : option (string * string)) : Visual :=
  if truthy_opt (asset_url p) && bool_decide (type p = Some "video")
  then VideoPlayer (default "" (asset_url p))
  else if truthy_opt image
  then Image (default "" image) (default "" (js_or (title p) image)) dimensions
  else NoVisual.

Definition CardV2 (p : Props) : Rendered :=
  match card_image p with
  | None => TypeError
  | Some (image, dimensions) =>
      if negb (truthy_opt (title p)) && negb (truthy_opt (title_link p))
         && negb (truthy_opt (asset_url p)) && negb (truthy_opt image)
      then UnableToRenderCard None
      else
        let url := js_or (og_scrape_url p) (title_link p) in
        CardV2View (CardHeader p image dimensions)
          (bool_decide (type p = Some "audio"))
          (if truthy_opt url then Some (SourceLink (author_name p) url) else None)
          (shown (title p)) (shown (text p))
  end.

(** [UnMemoizedCard] *)
Definition Card (p : Props) : Rendered :=
  if bool_decide (themeVersion p = "2") then CardV2 p else CardV1 p.

(** No slash occurs in [s]. *)
Definition no_slash (s : string) : Prop :=
  ∀ a b, s ≠ a ++ String slash b.
End Card.

(** A link preview as the scraper returns it. *)
Definition sample_card (theme : string) : Card.Props :=
  Card.mkProps None None None None (Some "https://www.getstream.io/chat/")
    (Some "Build chat") None (Some "Stream")
    (Some "https://getstream.io/blog/post") (Some "article") "fixed_height"
    theme.

(** * Properties *)

(** ** Pagination: the gate and the failure path *)




(** X1: When the query of the main list throws, [loadMore] returns normally,
    clears [loadingMore] and leaves [hasMore], the messages and the store
    as they are. *)
Lemma loadMore_fetch_exception_aborts (cl : Hooks) (limit : option nat)
    (w w' : World) :
  started (loadMore cl limit w) ≠ None →
  ∃ w'', resume (loadMore cl limit w) Rejected w' = Return w''
    ∧ loadingMore (hooks w'') = false
    ∧ hasMore (hooks w'') = hasMore (hooks w')
    ∧ messages (hooks w'') = messages (hooks w')
    ∧ state (channel w'') = state (channel w').
Proof.
  unfold loadMore.
  destruct (loadingMore cl || not_received (messages cl !! 0%nat)); [done|].
  intros _. simpl. eexists. split; [reflexivity|]. done.
Qed.

(** C1 (the thread instance): [loadMoreThread] awaits [channel.getReplies]
    outside any [try] block.  With a thread open and no thread fetch in
    flight it sets [threadLoadingMore] and issues the fetch; when the fetch
    throws, the exception propagates to the caller and the world is left as
    it is, so the in-flight flag is not cleared. *)
Theorem loadMoreThread_fetch_exception_propagates (cl : Hooks) (t : Message.t)
    (w w' : World) :
  threadLoadingMore cl = false →
  thread cl = Some t →
  (∃ id_lt, started (loadMoreThread cl w)
            = Some (GetReplies (Message.id t) thread_limit id_lt))
  ∧ threadLoadingMore (hooks (world_of (loadMoreThread cl w))) = true
  ∧ resume (loadMoreThread cl w) Rejected w' = Throw w'.
Proof.
  intros Hl Ht. unfold loadMoreThread. rewrite Hl, Ht. simpl.
  split; [eauto|]. done.
Qed.

Lemma loadMoreThread_fetch_exception_propagates_witness :
  let w1 := world_of (loadMoreThread (hooks world_thread) world_thread) in
  threadLoadingMore (hooks w1) = true
  ∧ resume (loadMoreThread (hooks world_thread) world_thread) Rejected w1
    = Throw w1.
Proof.
  destruct (loadMoreThread_fetch_exception_propagates
              (hooks world_thread) m1 world_thread
              (world_of (loadMoreThread (hooks world_thread) world_thread)))
    as (_ & H1 & H2); [reflexivity | reflexivity |].
  split; [exact H1 | exact H2].
Defined.




(** ** The store: insertion and the failed filter *)

Lemma elem_of_insert_sorted (x m : Message.t) (l : list Message.t) :
  x ∈ ChannelState.insert_sorted m l → x = m ∨ x ∈ l.
Proof.
  induction l as [|y l IH]; simpl.
  - intros ->%list_elem_of_singleton. by left.
  - destruct (ChannelState.before m y).
    + intros [->|H]%elem_of_cons; [by left | by right].
    + intros [->|H]%elem_of_cons; [right; left|].
      destruct (IH H) as [->|?]; [by left | right; by right].
Qed.

Lemma elem_of_addOrReplace (x m : Message.t) (l : list Message.t) :
  x ∈ ChannelState.addOrReplace m l → x = m ∨ x ∈ l.
Proof.
  unfold ChannelState.addOrReplace.
  destruct (ChannelState.has_id (Message.id m) l).
  - unfold ChannelState.replace_by_id.
    intros (y & -> & Hy)%list_elem_of_fmap.
    case_bool_decide; [by left | by right].
  - apply elem_of_insert_sorted.
Qed.

Lemma no_failed_not_failed (l : list Message.t) :
  no_failed (ChannelState.not_failed l).
Proof.
  intros m Hm. unfold ChannelState.not_failed in Hm.
  apply list_elem_of_filter in Hm. tauto.
Qed.

Lemma no_failed_addOrReplace (m : Message.t) (l : list Message.t) :
  Message.status m ≠ failed → no_failed l →
  no_failed (ChannelState.addOrReplace m l).
Proof.
  intros Hm Hl x [->|Hx]%elem_of_addOrReplace; [done | by apply Hl].
Qed.






(** ** Sending *)

(** Case analysis on the two tests of [updateMessage]. *)
Ltac updateMessage_cases cl m :=
  unfold updateMessage;
  destruct (thread cl); destruct (truthy_opt (Message.parent_id m)).

Lemma updateMessage_state (cl : Hooks) (m : Message.t) (w : World) :
  state (channel (updateMessage cl m w))
  = ChannelState.addMessageSorted m (state (channel w)).
Proof. updateMessage_cases cl m; done. Qed.

Lemma updateMessage_messages (cl : Hooks) (m : Message.t) (w : World) :
  messages (hooks (updateMessage cl m w))
  = ChannelState.messages (state (channel (updateMessage cl m w))).
Proof. updateMessage_cases cl m; done. Qed.

Lemma updateMessage_send_call (cl : Hooks) (m m' : Message.t) (w : World) :
  send_call (updateMessage cl m w) m' = send_call w m'.
Proof. updateMessage_cases cl m; done. Qed.

Lemma started_doSendMessage (cl : Hooks) (m : Message.t) (w : World) :
  started (doSendMessage cl m w) = Some (send_call w m).
Proof. reflexivity. Qed.

(** C3: [sendMessage] first purges the store of every failed message, in
    the main sequence and in every thread, and only then inserts the
    preview: the store in which the send request is issued is the purged
    store plus the preview, and neither it nor the sequence shown by the
    component holds a failed message. *)
Theorem sendMessage_purges_failed_first (cl : Hooks) (d : Draft) (uuid : string)
    (w : World) :
  let purged := ChannelState.filterErrorMessages (state (channel w)) in
  let preview := preview_of w d uuid in
  let w1 := world_of (sendMessage cl d uuid w) in
  no_failed (ChannelState.messages purged)
  ∧ (∀ k l, ChannelState.threads purged !! k = Some l → no_failed l)
  ∧ state (channel w1) = ChannelState.addMessageSorted preview purged
  ∧ started (sendMessage cl d uuid w) = Some (send_call w preview)
  ∧ no_failed (ChannelState.messages (state (channel w1)))
  ∧ no_failed (messages (hooks w1)).
Proof.
  intros purged preview w1.
  assert (Hp : no_failed (ChannelState.messages purged))
    by apply no_failed_not_failed.
  assert (Hs : state (channel w1) = ChannelState.addMessageSorted preview purged)
    by apply updateMessage_state.
  assert (Hn : no_failed (ChannelState.messages (state (channel w1)))).
  { rewrite Hs. simpl. by apply no_failed_addOrReplace. }
  split; [exact Hp|]. split.
  { intros k l. simpl. rewrite lookup_fmap.
    destruct (ChannelState.threads (state (channel w)) !! k) as [l'|];
      simpl; [|done].
    intros [= <-]. apply no_failed_not_failed. }
  split; [exact Hs|]. split.
  { unfold sendMessage.
    by rewrite started_doSendMessage, updateMessage_send_call. }
  split; [exact Hn|].
  assert (Hm : messages (hooks w1) = ChannelState.messages (state (channel w1)))
    by exact (updateMessage_messages cl preview
                (with_state ChannelState.filterErrorMessages w)).
  by rewrite Hm.
Qed.



(** Sending "hi" in the sample channel and failing: the stale failure
    [m2] is gone and the preview is stored once, as failed. *)
Example send_then_fail :
  let d := mkDraft "hi" None None None in
  let p := sendMessage (hooks world_main) d "u1" world_main in
  let w' := world_of (resume p Rejected (world_of p)) in
  (λ m, (Message.id m, Message.text m, Message.status m)) <$> messages (hooks (world_of p))
  = [("m1", "hello", received); ("alice-u1", "hi", sending)]
  ∧ (λ m, (Message.id m, Message.text m, Message.status m)) <$> messages (hooks w')
    = [("m1", "hello", received); ("alice-u1", "hi", failed)].
Proof. vm_compute. split; reflexivity. Qed.

(** ** Editing *)

(** X15: [updateMessage] applies the message to the store and shows the store's
    main sequence; with a thread open, a message that has a parent makes
    the component show the replies of that parent, whichever thread is
    open.  Otherwise the shown replies stay. *)
Lemma updateMessage_threadMessages (cl : Hooks) (m : Message.t) (w : World) :
  state (channel (updateMessage cl m w))
  = ChannelState.addMessageSorted m (state (channel w))
  ∧ messages (hooks (updateMessage cl m w))
    = ChannelState.messages (state (channel (updateMessage cl m w)))
  ∧ threadMessages (hooks (updateMessage cl m w))
    = if bool_decide (thread cl ≠ None) && truthy_opt (Message.parent_id m)
      then threads_at (Message.parent_id m) (updateMessage cl m w)
      else threadMessages (hooks w).
Proof.
  split; [apply updateMessage_state|]. split; [apply updateMessage_messages|].
  updateMessage_cases cl m; done.
Qed.

(** C5 (the failing input): the thread of [m1] is open and shows [r1]; the
    edit of [q1], a reply to [m2], makes the component show the replies of
    [m2] in the open thread, although the thread of [m1] in the store still
    holds [r1]. *)
Theorem updateMessage_other_thread_replaces_replies :
  let w' := updateMessage (hooks world_thread) q1_edited world_thread in
  thread (hooks world_thread) = Some m1
  ∧ threadMessages (hooks world_thread) = [r1]
  ∧ Message.parent_id q1_edited = Some "m2"
  ∧ thread (hooks w') = Some m1
  ∧ threads_at (Some "m1") w' = [r1]
  ∧ threadMessages (hooks w') = [q1_edited].
Proof. vm_compute. repeat split. Qed.

(** ** Thread projection *)

Lemma scan_down_found (msgs : list Message.t) (tid : string) (n i : nat)
    (m : Message.t) :
  (n ≤ length msgs)%nat →
  (i < n)%nat →
  msgs !! i = Some m →
  Message.id m = tid →
  (∀ j m', (i < j)%nat → msgs !! j = Some m' → Message.id m' ≠ tid) →
  scan_down msgs tid n = Some m.
Proof.
  induction n as [|n IH]; [lia|]. intros Hn Hi Hm Hid Hlast. simpl.
  destruct (decide (i = n)) as [->|Hne].
  - rewrite Hm. by rewrite bool_decide_eq_true_2.
  - destruct (lookup_lt_is_Some_2 msgs n) as [x Hx]; [lia|]. rewrite Hx.
    rewrite bool_decide_eq_false_2 by (apply (Hlast n); [lia | done]).
    apply IH; [lia | lia | done..].
Qed.

Lemma scan_down_absent (msgs : list Message.t) (tid : string) (n : nat) :
  (n ≤ length msgs)%nat →
  (∀ m, m ∈ msgs → Message.id m ≠ tid) →
  scan_down msgs tid n = None.
Proof.
  induction n as [|n IH]; [done|]. intros Hn Hno. simpl.
  destruct (lookup_lt_is_Some_2 msgs n) as [x Hx]; [lia|]. rewrite Hx.
  rewrite bool_decide_eq_false_2
    by (apply Hno; by apply list_elem_of_lookup_2 with n).
  apply IH; [lia | done].
Qed.

(** C6: with a thread open, the effect scans the main sequence from its
    last entry down; the entry with the root's identifier at the greatest
    index becomes the stored root, and when no entry has that identifier
    the world, and with it the root, stays as it is.  Without an open
    thread the effect does nothing. *)
Theorem threadEffect_recaptures_root (cl : Hooks) (w : World) :
  (∀ t i m,
     thread cl = Some t →
     messages cl !! i = Some m →
     Message.id m = Message.id t →
     (∀ j m', (i < j)%nat → messages cl !! j = Some m' →
              Message.id m' ≠ Message.id t) →
     threadEffect cl w = setThread (Some m) w
     ∧ thread (hooks (threadEffect cl w)) = Some m)
  ∧ (∀ t,
       thread cl = Some t →
       (∀ m, m ∈ messages cl → Message.id m ≠ Message.id t) →
       threadEffect cl w = w)
  ∧ (thread cl = None → threadEffect cl w = w).
Proof.
  split; [|split].
  - intros t i m Ht Hm Hid Hlast. unfold threadEffect. rewrite Ht.
    rewrite (scan_down_found _ _ _ i m); [done | done | | done..].
    by apply lookup_lt_Some with m.
  - intros t Ht Hno. unfold threadEffect. rewrite Ht.
    by rewrite scan_down_absent.
  - intros Ht. unfold threadEffect. by rewrite Ht.
Qed.

Lemma threadEffect_recaptures_root_witness :
  threadEffect (hooks world_root_edited) world_root_edited
  = setThread (Some m1_edited) world_root_edited
  ∧ threadEffect (hooks world_root_paged_out) world_root_paged_out
    = world_root_paged_out.
Proof.
  split.
  - apply (proj1 (threadEffect_recaptures_root (hooks world_root_edited)
                    world_root_edited) m1 0%nat m1_edited);
      [reflexivity | reflexivity | reflexivity |].
    intros [|[|j]] m' Hj Hm'; [lia | | done].
    injection Hm' as <-. discriminate.
  - apply (proj1 (proj2 (threadEffect_recaptures_root
                           (hooks world_root_paged_out) world_root_paged_out))
             m1); [reflexivity|].
    intros m Hm. apply list_elem_of_singleton in Hm as ->. discriminate.
Defined.

(** ** Pagination: the completion *)

Lemma loadMoreFinished_hasMore (b : bool) (ms : list Message.t) (w : World) :
  hasMore (hooks (loadMoreFinished_expire (loadMoreFinished (b, ms) w))) = b
  ∧ (window_open (loadMoreFinished_limiter w) = false →
     hasMore (hooks (loadMoreFinished (b, ms) w)) = b).
Proof.
  unfold loadMoreFinished, loadMoreFinished_expire, limiter_call, limiter_expire.
  destruct (window_open (loadMoreFinished_limiter w)); simpl; split; done.
Qed.

Lemma loadMoreThreadFinished_hasMore (b : bool) (ms : list Message.t) (w : World) :
  threadHasMore
    (hooks (loadMoreThreadFinished_expire (loadMoreThreadFinished (b, ms) w))) = b
  ∧ (window_open (loadMoreThreadFinished_limiter w) = false →
     threadHasMore (hooks (loadMoreThreadFinished (b, ms) w)) = b).
Proof.
  unfold loadMoreThreadFinished, loadMoreThreadFinished_expire,
    limiter_call, limiter_expire.
  destruct (window_open (loadMoreThreadFinished_limiter w)); simpl; split; done.
Qed.

(** C7: a fetch that resolves with a page completes with [hasMore]
    (resp. [threadHasMore]) true exactly when the page has as many
    messages as were requested: [limit], 100 by default, for the main list
    and 50 for the thread.  [w'] is the world when the page arrives.  The
    completion is debounced: outside a debounce window the flag is set at
    once, and in every case it is set when the window of this completion
    ends. *)
Theorem hasMore_iff_full_page (w' : World) (r : Response)
    (page : list Message.t) :
  response_messages r = Some page →
  (∀ cl limit w,
     started (loadMore cl limit w) ≠ None →
     let perPage := default 100%nat limit in
     (∃ id_lt, started (loadMore cl limit w) = Some (Query perPage id_lt))
     ∧ ∃ w'', resume (loadMore cl limit w) (Resolved r) w' = Return w''
         ∧ (hasMore (hooks (loadMoreFinished_expire w'')) = true
            ↔ length page = perPage)
         ∧ (window_open (loadMoreFinished_limiter w') = false →
            (hasMore (hooks w'') = true ↔ length page = perPage)))
  ∧ (∀ cl w,
       started (loadMoreThread cl w) ≠ None →
       (∃ parentID id_lt,
          started (loadMoreThread cl w)
          = Some (GetReplies parentID thread_limit id_lt))
       ∧ ∃ w'', resume (loadMoreThread cl w) (Resolved r) w' = Return w''
           ∧ (threadHasMore (hooks (loadMoreThreadFinished_expire w'')) = true
              ↔ length page = thread_limit)
           ∧ (window_open (loadMoreThreadFinished_limiter w') = false →
              (threadHasMore (hooks w'') = true ↔ length page = thread_limit))).
Proof.
  intros Hr. split.
  - intros cl limit w Hs perPage. subst perPage. unfold loadMore in *.
    destruct (loadingMore cl || not_received (messages cl !! 0%nat)); [done|].
    cbn -[loadMoreFinished loadMoreFinished_expire].
    split; [eauto|]. rewrite Hr. eexists. split; [reflexivity|].
    destruct (loadMoreFinished_hasMore
                (bool_decide (length page = default 100%nat limit))
                (ChannelState.messages (state (channel w'))) w') as [H1 H2].
    split.
    + rewrite H1. apply bool_decide_eq_true.
    + intros Hw. rewrite (H2 Hw). apply bool_decide_eq_true.
  - intros cl w Hs. unfold loadMoreThread in *.
    destruct (threadLoadingMore cl); [done|].
    destruct (thread cl) as [t|]; [|done].
    cbn -[loadMoreThreadFinished loadMoreThreadFinished_expire thread_limit
          threads_at].
    split; [eauto|]. rewrite Hr. eexists. split; [reflexivity|].
    destruct (loadMoreThreadFinished_hasMore
                (bool_decide (length page = thread_limit))
                (threads_at (Some (Message.id t)) w') w') as [H1 H2].
    split.
    + rewrite H1. apply bool_decide_eq_true.
    + intros Hw. rewrite (H2 Hw). apply bool_decide_eq_true.
Qed.

Lemma hasMore_iff_full_page_witness :
  let p := loadMore (hooks world_main) (Some 2%nat) world_main in
  ∃ w'', resume p (Resolved (mkResponse (Some [m1]) None)) (world_of p)
         = Return w''
    ∧ hasMore (hooks w'') = false.
Proof.
  destruct (proj1 (hasMore_iff_full_page
                     (world_of (loadMore (hooks world_main) (Some 2%nat) world_main))
                     (mkResponse (Some [m1]) None) [m1] eq_refl)
              (hooks world_main) (Some 2%nat) world_main)
    as (_ & w'' & Hres & _ & Hnow); [discriminate|].
  exists w''. split; [exact Hres|].
  destruct (hasMore (hooks w'')); [|reflexivity].
  destruct (Hnow eq_refl) as [Hfull _]. discriminate (Hfull eq_refl).
Defined.

(** The scenario of the specification: a page of 50 for a request of 50
    leaves [hasMore] true, a following page of 30 leaves it false. *)
Example loadMore_50_then_30 :
  let p1 := loadMore (hooks world_main) (Some 50%nat) world_main in
  let w1 := world_of (resume p1 (Resolved (mkResponse (Some (replicate 50 m1)) None))
                        (world_of p1)) in
  let w2 := loadMoreFinished_expire w1 in
  let p2 := loadMore (hooks w2) (Some 50%nat) w2 in
  let w3 := world_of (resume p2 (Resolved (mkResponse (Some (replicate 30 m1)) None))
                        (world_of p2)) in
  started p1 = Some (Query 50 (Some "m1"))
  ∧ (loadingMore (hooks w1), hasMore (hooks w1)) = (false, true)
  ∧ started p2 = Some (Query 50 (Some "m1"))
  ∧ (loadingMore (hooks w3), hasMore (hooks w3)) = (false, false).
Proof. vm_compute. repeat split. Qed.

(** ** New messages: mark read or badge *)

Lemma read_side_throttledCopyStateFromChannel (w : World) :
  read_side (throttledCopyStateFromChannel w) = read_side w.
Proof.
  unfold throttledCopyStateFromChannel, limiter_call.
  destruct (window_open (copyState_limiter w)); reflexivity.
Qed.

(** The thread part of [handleEvent] only writes hooks state. *)
Lemma refresh_thread_hooks_only (cl : Hooks) (e : Event.t) (w : World) :
  refresh_thread cl e w = with_hooks (λ _, hooks (refresh_thread cl e w)) w.
Proof.
  unfold refresh_thread. destruct (thread cl) as [t|]; [|by destruct w as [[]]].
  destruct (Event.message e) as [m|]; [|reflexivity].
  case_bool_decide; reflexivity.
Qed.

Lemma read_side_on_message_new (m : Message.t) (f : Hooks → Hooks) (w : World) :
  read_side (on_message_new m (with_hooks f w)) = read_side (on_message_new m w).
Proof.
  unfold on_message_new, markReadThrottled, markRead, limiter_call. simpl.
  destruct (mainChannelUpdated m && _); [|reflexivity].
  destruct (hidden (document w)); simpl; [reflexivity|].
  destruct (window_open (markRead_limiter w)); simpl; [reflexivity|].
  destruct (disconnected (channel w) || negb (read_events (channel w)));
    simpl; [reflexivity|].
  destruct (truthy (originalTitle w)); reflexivity.
Qed.

(** What one call of the throttled mark-read does: inside a throttle
    window the call is only recorded; outside, [markRead] runs, and on a
    connected channel with read events it requests [channel.markRead()] and
    moves [lastRead] to the present. *)
Lemma markReadThrottled_effect (w : World) :
  window_open (markRead_limiter (markReadThrottled w)) = true
  ∧ (window_open (markRead_limiter w) = true →
     read_side (markReadThrottled w)
     = (markRead_requests w, mkLimiter true (Some ()), lastRead w,
        title (document w)))
  ∧ (window_open (markRead_limiter w) = false →
     disconnected (channel w) = false →
     read_events (channel w) = true →
     markRead_requests (markReadThrottled w) = S (markRead_requests w)
     ∧ lastRead (markReadThrottled w) = now w).
Proof.
  unfold markReadThrottled, markRead, limiter_call.
  destruct (window_open (markRead_limiter w)); simpl.
  - split; [done|]. split; [done|]. intros [=].
  - destruct (disconnected (channel w)), (read_events (channel w)); simpl;
      try (split; [done|]; split; intros; done).
    destruct (truthy (originalTitle w)); simpl;
      split; try done; split; intros; done.
Qed.

(** C8: a ['message.new'] event is handled without an exception.  When
    its message counts for the main channel and its author is not the local
    user: in a foregrounded document the throttled mark-read is called (and
    outside a throttle window, on a connected channel with read events, the
    channel is marked read); in a backgrounded document the title becomes
    the badge of the recomputed unread count and nothing is marked read.
    For a message of the local user, or a reply with a parent that is not
    shown in the channel, neither happens. *)
Theorem message_new_marks_read_or_badges (cl : Hooks) (e : Event.t)
    (m : Message.t) (w : World) :
  Event.type e = "message.new" →
  Event.message e = Some m →
  ∃ w', handleEvent cl e w = Return w'
    ∧ (mainChannelUpdated m = true →
       User.id (Message.user m) ≠ userID (client w) →
       (hidden (document w) = false →
        read_side w' = read_side (markReadThrottled w)
        ∧ window_open (markRead_limiter w') = true
        ∧ (window_open (markRead_limiter w) = false →
           disconnected (channel w) = false →
           read_events (channel w) = true →
           markRead_requests w' = S (markRead_requests w)
           ∧ lastRead w' = now w))
       ∧ (hidden (document w) = true →
          read_side w'
          = (markRead_requests w, markRead_limiter w, lastRead w,
             unread_title (countUnread (channel w) (lastRead w))
               (originalTitle w))))
    ∧ ((truthy_opt (Message.parent_id m) = true
        ∧ Message.show_in_channel m = false)
       ∨ User.id (Message.user m) = userID (client w) →
       read_side w' = read_side w).
Proof.
  intros Hty Hm.
  set (w' := throttledCopyStateFromChannel
               (on_message_new m (refresh_thread cl e w))).
  exists w'. split.
  { unfold handleEvent. rewrite Hty, Hm. by rewrite bool_decide_eq_true_2. }
  assert (Hside : read_side w' = read_side (on_message_new m w)).
  { subst w'. rewrite read_side_throttledCopyStateFromChannel,
      refresh_thread_hooks_only. apply read_side_on_message_new. }
  assert (Hparts : markRead_requests w' = markRead_requests (on_message_new m w)
                   ∧ markRead_limiter w' = markRead_limiter (on_message_new m w)
                   ∧ lastRead w' = lastRead (on_message_new m w)).
  { unfold read_side in Hside. injection Hside as -> -> -> _. done. }
  destruct Hparts as (Hreq & Hlim & Hlast). rewrite Hside, Hreq, Hlim, Hlast.
  clearbody w'. clear Hside Hreq Hlim Hlast w'.
  split.
  - intros Hmain Hauthor. unfold on_message_new.
    rewrite Hmain, bool_decide_eq_true_2 by done. simpl. split.
    + intros ->. simpl. split; [done|].
      destruct (markReadThrottled_effect w) as (Hopen & _ & Hrun).
      split; [exact Hopen | exact Hrun].
    + intros ->. reflexivity.
  - intros Hskip. unfold on_message_new.
    destruct Hskip as [[Hp Hs] | Ha].
    + unfold mainChannelUpdated. rewrite Hp, Hs. reflexivity.
    + rewrite (bool_decide_eq_false_2 _) by (intros H; by apply H).
      rewrite andb_false_r. reflexivity.
Qed.

Lemma message_new_marks_read_or_badges_witness :
  (∃ w', handleEvent (hooks world_main) new_from_bob world_main = Return w'
     ∧ markRead_requests w' = 1%nat)
  ∧ (∃ w', handleEvent (hooks world_background) new_from_bob world_background
           = Return w'
       ∧ read_side w' = (0%nat, idle, 0, "(3) Chat")).
Proof.
  split.
  - destruct (message_new_marks_read_or_badges (hooks world_main) new_from_bob
                (sample_message "m3" "news" received bob 50 None) world_main
                eq_refl eq_refl) as (w' & Hret & Hmain & _).
    exists w'. split; [exact Hret|].
    destruct Hmain as [Hfront _]; [reflexivity | discriminate |].
    destruct (Hfront eq_refl) as (_ & _ & Hrun).
    destruct (Hrun eq_refl eq_refl eq_refl) as [Hreq _]. exact Hreq.
  - destruct (message_new_marks_read_or_badges (hooks world_background)
                new_from_bob (sample_message "m3" "news" received bob 50 None)
                world_background eq_refl eq_refl) as (w' & Hret & Hmain & _).
    exists w'. split; [exact Hret|].
    destruct Hmain as [_ Hback]; [reflexivity | discriminate |].
    exact (Hback eq_refl).
Defined.

(** ** The status line of the team message *)

(** C9, as stated, fails for the empty list: it is a list of another
    length than one, and the read-status branch is not taken. *)
Lemma empty_readBy_takes_no_read_status :
  ¬ (∀ (p : MessageTeam.Props) (rb : list User.t),
       MessageTeam.isMyMessage p = true →
       Message.type <$> MessageTeam.message p ≠ Some "error" →
       Message.status <$> MessageTeam.message p ≠ Some sending →
       MessageTeam.threadList p = false →
       MessageTeam.readBy p = Some rb →
       length rb ≠ 1%nat →
       ∃ u c, MessageTeam.MessageTeamStatus p = MessageTeam.ReadStatus u c).
Proof.
  intros H.
  destruct (H unread_own_message []) as (u & c & Hr);
    [reflexivity | discriminate | discriminate | reflexivity | reflexivity
    | discriminate |].
  vm_compute in Hr. discriminate Hr.
Qed.

Lemma MessageTeamStatus_read_status (p : MessageTeam.Props) :
  MessageTeam.isMyMessage p = true →
  Message.type <$> MessageTeam.message p ≠ Some "error" →
  Message.status <$> MessageTeam.message p ≠ Some sending →
  (MessageTeam.shows_read_status p = true
   ↔ ∃ u c, MessageTeam.MessageTeamStatus p = MessageTeam.ReadStatus u c).
Proof.
  intros Hmine Herr Hsend. unfold MessageTeam.MessageTeamStatus.
  rewrite Hmine. simpl.
  rewrite (bool_decide_eq_false_2 _ Herr), (bool_decide_eq_false_2 _ Hsend).
  destruct (MessageTeam.shows_read_status p).
  - split; [eauto | done].
  - split; [done|]. intros (u & c & H).
    destruct (MessageTeam.shows_delivered p); discriminate H.
Qed.

(** C9 (amended): [justReadByMe] holds exactly when the read-by list has
    one entry and that entry is the local user.  With a list of any other
    length it does not hold, and the read-status branch is then taken
    exactly when the list is not empty and the message is not rendered in a
    thread list, provided the component gets that far (a message of the
    local user that is neither an error nor being sent). *)
Theorem justReadByMe_single_own_entry (p : MessageTeam.Props) :
  (MessageTeam.justReadByMe p = true
   ↔ ∃ u me, MessageTeam.readBy p = Some [u]
       ∧ MessageTeam.client_user p = Some me
       ∧ User.id u = User.id me)
  ∧ (∀ rb,
       MessageTeam.readBy p = Some rb →
       length rb ≠ 1%nat →
       MessageTeam.justReadByMe p = false
       ∧ (MessageTeam.shows_read_status p = true
          ↔ rb ≠ [] ∧ MessageTeam.threadList p = false))
  ∧ (MessageTeam.isMyMessage p = true →
     Message.type <$> MessageTeam.message p ≠ Some "error" →
     Message.status <$> MessageTeam.message p ≠ Some sending →
     (MessageTeam.shows_read_status p = true
      ↔ ∃ u c, MessageTeam.MessageTeamStatus p = MessageTeam.ReadStatus u c)).
Proof.
  split; [|split].
  - unfold MessageTeam.justReadByMe.
    destruct (MessageTeam.readBy p) as [rb|],
             (MessageTeam.client_user p) as [me|];
      try (split; [done | by intros (u & me' & ? & ? & ?)]).
    destruct rb as [|u [|u' rb]]; simpl.
    + split; [done | by intros (u & me' & ? & ? & ?)].
    + split.
      * intros E%bool_decide_eq_true. by exists u, me.
      * intros (u0 & me0 & [= ->] & [= ->] & E). by apply bool_decide_eq_true.
    + split; [done | by intros (u0 & me0 & ? & ? & ?)].
  - intros rb Hrb Hlen.
    assert (Hj : MessageTeam.justReadByMe p = false).
    { unfold MessageTeam.justReadByMe. rewrite Hrb.
      destruct (MessageTeam.client_user p); [|done].
      by rewrite (bool_decide_eq_false_2 _ Hlen). }
    split; [exact Hj|].
    unfold MessageTeam.shows_read_status. rewrite Hrb, Hj.
    destruct rb as [|u rb]; simpl.
    + split; [done | by intros [? _]].
    + destruct (MessageTeam.threadList p); simpl; split; try done.
      by intros [_ ?].
  - apply MessageTeamStatus_read_status.
Qed.

Lemma justReadByMe_single_own_entry_witness :
  MessageTeam.justReadByMe own_message_read_by_two = false
  ∧ ∃ u c, MessageTeam.MessageTeamStatus own_message_read_by_two
           = MessageTeam.ReadStatus u c.
Proof.
  destruct (justReadByMe_single_own_entry own_message_read_by_two)
    as (_ & Hother & Hpath).
  destruct (Hother [alice; bob] eq_refl) as [Hj Hshow]; [discriminate|].
  split; [exact Hj|].
  apply Hpath; [reflexivity | discriminate | discriminate |].
  apply Hshow. split; [discriminate | reflexivity].
Defined.

(** ** Removing *)


(** * Further properties of the component *)

(** ** Pagination of the main list *)

Lemma loadMore_fetch_exception_aborts_witness :
  let p := loadMore (hooks world_main) None world_main in
  ∃ w'', resume p Rejected (world_of p) = Return w''
    ∧ loadingMore (hooks w'') = false
    ∧ messages (hooks w'') = [m1; m2].
Proof.
  destruct (loadMore_fetch_exception_aborts (hooks world_main) None world_main
              (world_of (loadMore (hooks world_main) None world_main)))
    as (w'' & Hres & Hl & _ & Hm & _); [discriminate|].
  exists w''. split; [exact Hres|]. split; [exact Hl | exact Hm].
Defined.

(** X2: The gate of [loadMore] reads the values of the render the callback
    was created in.  Once a fetch has started, a call made through the
    callback of the next render (which has seen [loadingMore]) returns at
    once, in any world; a second call made through the same callback
    starts the same query again. *)
Theorem loadMore_gate_reads_render (cl : Hooks) (limit : option nat) (w : World) :
  started (loadMore cl limit w) ≠ None →
  (∀ limit' w2,
     loadMore (hooks (world_of (loadMore cl limit w))) limit' w2 = Return w2)
  ∧ (∀ w2, started (loadMore cl limit w2) = started (loadMore cl limit w)).
Proof.
  intros Hs. split.
  - intros limit' w2. unfold loadMore in *.
    destruct (loadingMore cl || not_received (messages cl !! 0%nat)); done.
  - intros w2. unfold loadMore.
    destruct (loadingMore cl || not_received (messages cl !! 0%nat)); done.
Qed.

Lemma loadMore_gate_reads_render_witness :
  let p := loadMore (hooks world_main) None world_main in
  loadMore (hooks (world_of p)) None (world_of p) = Return (world_of p)
  ∧ started (loadMore (hooks world_main) None (world_of p))
    = Some (Query 100 (Some "m1")).
Proof.
  destruct (loadMore_gate_reads_render (hooks world_main) None world_main)
    as [Hnext Hsame]; [discriminate|].
  split.
  - apply Hnext.
  - rewrite Hsame. reflexivity.
Defined.

(** X3: A page that arrives outside a debounce window clears [loadingMore] and
    shows the main sequence the store holds at that moment.  A page that
    arrives inside a window changes no hooks state: [loadingMore] stays
    set until the window ends, and what is then shown is the sequence the
    store held when the page arrived.  The component never writes the
    store. *)
Theorem loadMore_completion (cl : Hooks) (limit : option nat) (w w' : World)
    (r : Response) (page : list Message.t) :
  started (loadMore cl limit w) ≠ None →
  response_messages r = Some page →
  ∃ w'', resume (loadMore cl limit w) (Resolved r) w' = Return w''
    ∧ channel w'' = channel w'
    ∧ (window_open (loadMoreFinished_limiter w') = false →
       loadingMore (hooks w'') = false
       ∧ messages (hooks w'') = ChannelState.messages (state (channel w')))
    ∧ (window_open (loadMoreFinished_limiter w') = true →
       hooks w'' = hooks w'
       ∧ loadingMore (hooks (loadMoreFinished_expire w'')) = false
       ∧ messages (hooks (loadMoreFinished_expire w''))
         = ChannelState.messages (state (channel w'))).
Proof.
  intros Hs Hr. unfold loadMore in *.
  destruct (loadingMore cl || not_received (messages cl !! 0%nat)); [done|].
  cbn -[loadMoreFinished loadMoreFinished_expire]. rewrite Hr.
  eexists. split; [reflexivity|].
  unfold loadMoreFinished, loadMoreFinished_expire, limiter_call, limiter_expire.
  destruct (window_open (loadMoreFinished_limiter w')) eqn:E; simpl.
  - split; [done|]. split; [done|]. intros _. by destruct (hooks w').
  - split; [done|]. split; [done|]. done.
Qed.

Lemma loadMore_completion_witness :
  let p := loadMore (hooks world_main) None world_main in
  ∃ w'', resume p (Resolved (mkResponse (Some [m1]) None)) (world_of p)
         = Return w''
    ∧ loadingMore (hooks w'') = false.
Proof.
  destruct (loadMore_completion (hooks world_main) None world_main
              (world_of (loadMore (hooks world_main) None world_main))
              (mkResponse (Some [m1]) None) [m1])
    as (w'' & Hres & _ & Hnow & _); [discriminate | reflexivity |].
  exists w''. split; [exact Hres|]. apply Hnow. reflexivity.
Defined.

(** After a failed fetch the list can be paginated again: the callback of
    the following render, seeing the same messages, starts the same query. *)
Theorem loadMore_failure_allows_retry (cl : Hooks) (limit : option nat)
    (w w' : World) :
  started (loadMore cl limit w) ≠ None →
  messages (hooks w') = messages cl →
  ∃ w'', resume (loadMore cl limit w) Rejected w' = Return w''
    ∧ started (loadMore (hooks w'') limit w'') = started (loadMore cl limit w).
Proof.
  intros Hs Hm. unfold loadMore in *.
  destruct (loadingMore cl) eqn:El; [done|]. simpl in *.
  destruct (not_received (messages cl !! 0%nat)) eqn:En; [done|].
  simpl. eexists. split; [reflexivity|]. simpl. by rewrite Hm, En.
Qed.

Lemma loadMore_failure_allows_retry_witness :
  let p := loadMore (hooks world_main) None world_main in
  ∃ w'', resume p Rejected (world_of p) = Return w''
    ∧ started (loadMore (hooks w'') None w'') = Some (Query 100 (Some "m1")).
Proof.
  destruct (loadMore_failure_allows_retry (hooks world_main) None world_main
              (world_of (loadMore (hooks world_main) None world_main)))
    as (w'' & Hres & Hagain); [discriminate | reflexivity |].
  exists w''. split; [exact Hres|]. rewrite Hagain. reflexivity.
Defined.

(** ** Pagination of the thread *)

(** X4: A page of replies completes for the thread the fetch was started for:
    outside a debounce window [threadLoadingMore] is cleared and the
    replies shown are those the store holds, at that moment, for the root
    that was open when [loadMoreThread] was called, whichever thread is
    open when the page arrives.  The open thread itself and the channel
    are not written. *)
Theorem loadMoreThread_completion (cl : Hooks) (t : Message.t) (w w' : World)
    (r : Response) (page : list Message.t) :
  threadLoadingMore cl = false →
  thread cl = Some t →
  response_messages r = Some page →
  ∃ w'', resume (loadMoreThread cl w) (Resolved r) w' = Return w''
    ∧ channel w'' = channel w'
    ∧ thread (hooks w'') = thread (hooks w')
    ∧ (window_open (loadMoreThreadFinished_limiter w') = false →
       threadLoadingMore (hooks w'') = false
       ∧ threadMessages (hooks w'') = threads_at (Some (Message.id t)) w')
    ∧ (window_open (loadMoreThreadFinished_limiter w') = true →
       hooks w'' = hooks w'
       ∧ threadLoadingMore (hooks (loadMoreThreadFinished_expire w'')) = false
       ∧ threadMessages (hooks (loadMoreThreadFinished_expire w''))
         = threads_at (Some (Message.id t)) w').
Proof.
  intros Hl Ht Hr. unfold loadMoreThread. rewrite Hl, Ht.
  cbn -[loadMoreThreadFinished loadMoreThreadFinished_expire thread_limit
        threads_at].
  rewrite Hr. eexists. split; [reflexivity|].
  unfold loadMoreThreadFinished, loadMoreThreadFinished_expire,
    limiter_call, limiter_expire.
  destruct (window_open (loadMoreThreadFinished_limiter w')) eqn:E; simpl.
  - split; [done|]. split; [done|]. split; [done|].
    intros _. by destruct (hooks w').
  - split; [done|]. split; [done|]. done.
Qed.

Lemma loadMoreThread_completion_witness :
  let p := loadMoreThread (hooks world_thread) world_thread in
  ∃ w'', resume p (Resolved (mkResponse (Some []) None))
           (openThread m2 (world_of p))
         = Return w''
    ∧ thread (hooks w'') = Some m2
    ∧ threadMessages (hooks w'') = [r1].
Proof.
  destruct (loadMoreThread_completion (hooks world_thread) m1 world_thread
              (openThread m2
                 (world_of (loadMoreThread (hooks world_thread) world_thread)))
              (mkResponse (Some []) None) [])
    as (w'' & Hres & _ & Hth & Hnow & _);
    [reflexivity | reflexivity | reflexivity |].
  exists w''. split; [exact Hres|]. split; [exact Hth|].
  apply Hnow. reflexivity.
Defined.

(** ** Events *)

(** X5: [handleEvent] never waits for the backend, and it throws exactly for a
    ['message.new'] event that carries no message. *)
Theorem handleEvent_throws_iff (cl : Hooks) (e : Event.t) (w : World) :
  started (handleEvent cl e w) = None
  ∧ ((∃ w', handleEvent cl e w = Throw w')
     ↔ Event.type e = "message.new" ∧ Event.message e = None).
Proof.
  unfold handleEvent. case_bool_decide as Hty.
  - destruct (Event.message e) as [m|]; simpl.
    + split; [done|]. split; [by intros [w' ?] | by intros [_ ?]].
    + split; [done|]. split; [done | eauto].
  - simpl. split; [done|]. split; [by intros [w' ?] | by intros [? _]].
Qed.

Lemma pagination_side_refresh_thread (cl : Hooks) (e : Event.t) (w : World) :
  pagination_side (refresh_thread cl e w) = pagination_side w.
Proof.
  rewrite refresh_thread_hooks_only. unfold refresh_thread.
  destruct (thread cl) as [t|]; [|reflexivity].
  destruct (Event.message e) as [m|]; [|reflexivity].
  case_bool_decide; reflexivity.
Qed.

Lemma pagination_side_on_message_new (m : Message.t) (w : World) :
  pagination_side (on_message_new m w) = pagination_side w.
Proof.
  unfold on_message_new, markReadThrottled, markRead, limiter_call.
  destruct (mainChannelUpdated m && _); [|reflexivity].
  destruct (hidden (document w)); simpl; [reflexivity|].
  destruct (window_open (markRead_limiter w)); simpl; [reflexivity|].
  destruct (disconnected (channel w) || negb (read_events (channel w)));
    simpl; [reflexivity|].
  destruct (truthy (originalTitle w)); reflexivity.
Qed.

Lemma pagination_side_throttledCopyStateFromChannel (w : World) :
  pagination_side (throttledCopyStateFromChannel w) = pagination_side w.
Proof.
  unfold throttledCopyStateFromChannel, limiter_call.
  destruct (window_open (copyState_limiter w)); reflexivity.
Qed.

(** X6: Whatever the event, and whether it returns or throws, [handleEvent]
    leaves pagination alone: the four pagination flags, the two debouncers
    and the channel object with its store are as before. *)
Theorem handleEvent_leaves_pagination (cl : Hooks) (e : Event.t) (w : World) :
  pagination_side (world_of (handleEvent cl e w)) = pagination_side w.
Proof.
  unfold handleEvent. case_bool_decide.
  - destruct (Event.message e) as [m|]; simpl.
    + by rewrite pagination_side_throttledCopyStateFromChannel,
        pagination_side_on_message_new, pagination_side_refresh_thread.
    + apply pagination_side_refresh_thread.
  - simpl. by rewrite pagination_side_throttledCopyStateFromChannel,
      pagination_side_refresh_thread.
Qed.

(** Case analysis on every test of the ['message.new'] branch. *)
Ltac on_message_new_cases m w :=
  unfold on_message_new, markReadThrottled, markRead, limiter_call;
  destruct (mainChannelUpdated m
            && bool_decide (User.id (Message.user m) ≠ userID (client w)));
    [|reflexivity];
  destruct (hidden (document w)); simpl; [reflexivity|];
  destruct (window_open (markRead_limiter w)); simpl; [reflexivity|];
  destruct (disconnected (channel w) || negb (read_events (channel w)));
    simpl; [reflexivity|];
  destruct (truthy (originalTitle w)); reflexivity.

Lemma on_message_new_hooks (m : Message.t) (w : World) :
  hooks (on_message_new m w) = hooks w
  ∧ channel (on_message_new m w) = channel w
  ∧ copyState_limiter (on_message_new m w) = copyState_limiter w.
Proof. split; [|split]; on_message_new_cases m w. Qed.

Lemma throttledCopyStateFromChannel_thread (w : World) :
  thread (hooks (throttledCopyStateFromChannel w)) = thread (hooks w)
  ∧ threadMessages (hooks (throttledCopyStateFromChannel w))
    = threadMessages (hooks w).
Proof.
  unfold throttledCopyStateFromChannel, limiter_call.
  destruct (window_open (copyState_limiter w)); done.
Qed.

(** X7: With a thread open, every event that [handleEvent] handles refreshes
    the shown replies from the store's sequence for the open root, and it
    replaces the root exactly when the event carries a message with the
    root's identifier.  Without an open thread, neither the root nor the
    shown replies are written. *)
Theorem handleEvent_refreshes_thread (cl : Hooks) (e : Event.t) (w : World) :
  let w' := world_of (handleEvent cl e w) in
  (thread cl = None →
   thread (hooks w') = thread (hooks w)
   ∧ threadMessages (hooks w') = threadMessages (hooks w))
  ∧ (∀ t,
       thread cl = Some t →
       threadMessages (hooks w') = threads_at (Some (Message.id t)) w
       ∧ (∀ m, Event.message e = Some m → Message.id m = Message.id t →
               thread (hooks w') = Some m)
       ∧ ((∀ m, Event.message e = Some m → Message.id m ≠ Message.id t) →
          thread (hooks w') = thread (hooks w))).
Proof.
  intros w'.
  assert (Hw' : thread (hooks w') = thread (hooks (refresh_thread cl e w))
                ∧ threadMessages (hooks w')
                  = threadMessages (hooks (refresh_thread cl e w))).
  { subst w'. unfold handleEvent. case_bool_decide.
    - destruct (Event.message e) as [m|]; simpl; [|done].
      destruct (throttledCopyStateFromChannel_thread
                  (on_message_new m (refresh_thread cl e w))) as [-> ->].
      by destruct (on_message_new_hooks m (refresh_thread cl e w)) as (-> & _).
    - simpl. apply throttledCopyStateFromChannel_thread. }
  destruct Hw' as [-> ->]. clearbody w'. clear w'.
  unfold refresh_thread. split.
  - intros ->. done.
  - intros t ->. destruct (Event.message e) as [m|].
    + case_bool_decide as E; simpl.
      * split; [done|]. split; [by intros m' [= <-] _|].
        intros Hne. by destruct (Hne m eq_refl).
      * split; [done|]. split; [|done].
        intros m' [= <-] E'. by destruct E.
    + simpl. split; [done|]. split; [by intros m [=]|done].
Qed.

Lemma throttledCopyStateFromChannel_shows_store (w : World) :
  shows_store (state (channel w))
    (hooks (throttledCopyStateFromChannel_expire
              (throttledCopyStateFromChannel w)))
  ∧ (window_open (copyState_limiter w) = false →
     shows_store (state (channel w)) (hooks (throttledCopyStateFromChannel w))).
Proof.
  unfold throttledCopyStateFromChannel, throttledCopyStateFromChannel_expire,
    limiter_call, limiter_expire, shows_store.
  destruct (window_open (copyState_limiter w)); simpl; done.
Qed.

(** X8: Every event that [handleEvent] handles without throwing reaches the
    component: outside a throttle window the messages, watchers, read
    receipts, typing users and watcher count shown are at once those of
    the store, and in every case they are when the throttle window of the
    event ends (the store being read at that moment; here it has not
    changed since the event). *)
Theorem handleEvent_shows_store (cl : Hooks) (e : Event.t) (w w' : World) :
  handleEvent cl e w = Return w' →
  shows_store (state (channel w))
    (hooks (throttledCopyStateFromChannel_expire w'))
  ∧ (window_open (copyState_limiter w) = false →
     shows_store (state (channel w)) (hooks w')).
Proof.
  unfold handleEvent.
  assert (Hr : channel (refresh_thread cl e w) = channel w
               ∧ copyState_limiter (refresh_thread cl e w)
                 = copyState_limiter w)
    by (by rewrite refresh_thread_hooks_only).
  destruct Hr as [Hc Hl].
  case_bool_decide.
  - destruct (Event.message e) as [m|]; [|done]. intros [= <-].
    destruct (on_message_new_hooks m (refresh_thread cl e w)) as (_ & Hc' & Hl').
    rewrite <- Hc, <- Hc', <- Hl, <- Hl'.
    apply throttledCopyStateFromChannel_shows_store.
  - intros [= <-]. rewrite <- Hc, <- Hl.
    apply throttledCopyStateFromChannel_shows_store.
Qed.

Lemma handleEvent_shows_store_witness :
  ∃ w', handleEvent (hooks world_thread) new_from_bob
          (with_state (ChannelState.addMessageSorted
                         (sample_message "m3" "news" received bob 50 None))
             world_thread)
        = Return w'
    ∧ Message.id <$> messages (hooks w') = ["m1"; "m2"; "m3"].
Proof.
  eexists. split; [reflexivity|].
  destruct (handleEvent_shows_store (hooks world_thread) new_from_bob
              (with_state (ChannelState.addMessageSorted
                             (sample_message "m3" "news" received bob 50 None))
                 world_thread) _ eq_refl) as [_ Hnow].
  destruct (Hnow eq_refl) as [-> _]. reflexivity.
Defined.

(** ** Mark read and the title badge *)

Lemma handleEvent_keeps_refs (cl : Hooks) (e : Event.t) (w : World) :
  originalTitle (world_of (handleEvent cl e w)) = originalTitle w
  ∧ now (world_of (handleEvent cl e w)) = now w
  ∧ channel (world_of (handleEvent cl e w)) = channel w.
Proof.
  assert (Hc : ∀ x, originalTitle (throttledCopyStateFromChannel x) = originalTitle x
                    ∧ now (throttledCopyStateFromChannel x) = now x
                    ∧ channel (throttledCopyStateFromChannel x) = channel x).
  { intros x. unfold throttledCopyStateFromChannel, limiter_call.
    destruct (window_open (copyState_limiter x)); done. }
  assert (Hn : ∀ m x, originalTitle (on_message_new m x) = originalTitle x
                      ∧ now (on_message_new m x) = now x
                      ∧ channel (on_message_new m x) = channel x).
  { intros m x. split; [|split]; on_message_new_cases m x. }
  assert (Hr : originalTitle (refresh_thread cl e w) = originalTitle w
               ∧ now (refresh_thread cl e w) = now w
               ∧ channel (refresh_thread cl e w) = channel w)
    by (by rewrite refresh_thread_hooks_only).
  destruct Hr as (Hr1 & Hr2 & Hr3).
  unfold handleEvent. case_bool_decide.
  - destruct (Event.message e) as [m|]; simpl; [|done].
    destruct (Hc (on_message_new m (refresh_thread cl e w))) as (-> & -> & ->).
    destruct (Hn m (refresh_thread cl e w)) as (-> & -> & ->). done.
  - simpl. destruct (Hc (refresh_thread cl e w)) as (-> & -> & ->). done.
Qed.

(** X9: A message of another user that arrives while the document is hidden
    puts the unread badge in the title.  When the document is shown again,
    [onVisibilityChange] marks the channel read and moves [lastRead] to
    the present, and it puts the original title back when that title is
    not empty; on a disconnected channel, or one without read events, it
    changes nothing and the badge stays. *)
Theorem badge_until_document_shown (cl : Hooks) (e : Event.t) (m : Message.t)
    (w w1 : World) :
  Event.type e = "message.new" →
  Event.message e = Some m →
  mainChannelUpdated m = true →
  User.id (Message.user m) ≠ userID (client w) →
  hidden (document w) = true →
  handleEvent cl e w = Return w1 →
  let badge := unread_title (countUnread (channel w) (lastRead w))
                 (originalTitle w) in
  let w2 := onVisibilityChange (with_hidden false w1) in
  title (document w1) = badge
  ∧ (disconnected (channel w) = false →
     read_events (channel w) = true →
     markRead_requests w2 = S (markRead_requests w)
     ∧ lastRead w2 = now w
     ∧ title (document w2)
       = if truthy (originalTitle w) then originalTitle w else badge)
  ∧ (disconnected (channel w) = true ∨ read_events (channel w) = false →
     w2 = with_hidden false w1).
Proof.
  intros Hty Hm Hmain Hauthor Hhid Hret badge w2.
  destruct (handleEvent_keeps_refs cl e w) as (Ho & Hn & Hc).
  rewrite Hret in Ho, Hn, Hc. simpl in Ho, Hn, Hc.
  assert (Hside : read_side w1
                  = (markRead_requests w, markRead_limiter w, lastRead w, badge)).
  { unfold handleEvent in Hret. rewrite Hty, Hm in Hret.
    rewrite bool_decide_eq_true_2 in Hret by done. injection Hret as Hw1.
    rewrite <- Hw1.
    rewrite read_side_throttledCopyStateFromChannel, refresh_thread_hooks_only,
      read_side_on_message_new.
    unfold on_message_new.
    by rewrite Hmain, bool_decide_eq_true_2, Hhid by done. }
  unfold read_side in Hside. injection Hside as Hreq Hlim Hlast Htitle.
  split; [exact Htitle|].
  subst w2. unfold onVisibilityChange, markRead. simpl. rewrite Hc, Ho, Hn.
  split.
  - intros -> ->. simpl.
    destruct (truthy (originalTitle w)); simpl; rewrite Hreq; [done|].
    by rewrite Htitle.
  - intros [-> | ->]; [done|]. by rewrite orb_true_r.
Qed.

Lemma badge_until_document_shown_witness :
  ∃ w1, handleEvent (hooks world_background) new_from_bob world_background
        = Return w1
    ∧ title (document w1) = "(3) Chat"
    ∧ title (document (onVisibilityChange (with_hidden false w1))) = "Chat"
    ∧ markRead_requests (onVisibilityChange (with_hidden false w1)) = 1%nat.
Proof.
  eexists. split; [reflexivity|].
  destruct (badge_until_document_shown (hooks world_background) new_from_bob
              (sample_message "m3" "news" received bob 50 None)
              world_background _ eq_refl eq_refl eq_refl
              ltac:(discriminate) eq_refl eq_refl) as (Hb & Hshown & _).
  split; [exact Hb|].
  destruct (Hshown eq_refl eq_refl) as (Hreq & _ & Ht).
  split; [exact Ht | exact Hreq].
Defined.

(** ** Opening and closing a thread *)

(** X10: [openThread] captures the message as root and shows the replies the
    store holds for it, none when the store has no thread for it; it
    leaves the main sequence and everything pagination owns, the thread
    flags included, as they are.  Closing after opening is closing. *)
Theorem openThread_closeThread (message : Message.t) (w : World) :
  thread (hooks (openThread message w)) = Some message
  ∧ (ChannelState.threads (state (channel w)) !! Message.id message = None →
     threadMessages (hooks (openThread message w)) = [])
  ∧ (∀ l, ChannelState.threads (state (channel w)) !! Message.id message
          = Some l →
          threadMessages (hooks (openThread message w)) = l)
  ∧ messages (hooks (openThread message w)) = messages (hooks w)
  ∧ pagination_side (openThread message w) = pagination_side w
  ∧ closeThread (openThread message w) = closeThread w
  ∧ thread (hooks (closeThread w)) = None
  ∧ threadMessages (hooks (closeThread w)) = [].
Proof.
  split; [done|]. split.
  { intros H. unfold openThread, threads_at, ChannelState.thread_of. simpl.
    by rewrite H. }
  split.
  { intros l H. unfold openThread, threads_at, ChannelState.thread_of. simpl.
    by rewrite H. }
  done.
Qed.

(** After [openThread], the callback of the next render fetches the
    replies of the opened message, before the oldest reply the store holds
    for it, provided no thread fetch is in flight; a fetch still in flight
    for the thread open before blocks it. *)
Theorem openThread_then_loadMoreThread (message : Message.t) (w : World) :
  let w1 := openThread message w in
  (threadLoadingMore (hooks w) = false →
   started (loadMoreThread (hooks w1) w1)
   = Some (GetReplies (Message.id message) thread_limit
             (Message.id <$> threads_at (Some (Message.id message)) w !! 0%nat)))
  ∧ (threadLoadingMore (hooks w) = true →
     loadMoreThread (hooks w1) w1 = Return w1).
Proof.
  intros w1. subst w1. unfold loadMoreThread, openThread. simpl. split.
  - intros ->. reflexivity.
  - intros ->. reflexivity.
Qed.

Lemma openThread_then_loadMoreThread_witness :
  started (loadMoreThread (hooks (openThread m1 world_main))
             (openThread m1 world_main))
  = Some (GetReplies "m1" 50 (Some "r1")).
Proof.
  rewrite (proj1 (openThread_then_loadMoreThread m1 world_main) eq_refl).
  reflexivity.
Defined.

(** ** The thread effect *)

Lemma scan_down_id (msgs : list Message.t) (tid : string) (n : nat)
    (m : Message.t) :
  scan_down msgs tid n = Some m → Message.id m = tid.
Proof.
  induction n as [|n IH]; [done|]. simpl.
  destruct (msgs !! n) as [x|]; [|done].
  case_bool_decide as E; [|exact IH]. by intros [= <-].
Qed.

(** X11: The effect is stable: run again in the render that follows its own
    update, it changes nothing, so the update of the root does not cascade. *)
Theorem threadEffect_idempotent (w : World) :
  let w1 := threadEffect (hooks w) w in
  threadEffect (hooks w1) w1 = w1.
Proof.
  intros w1. subst w1. unfold threadEffect.
  destruct (thread (hooks w)) as [t|] eqn:Ht; [|by rewrite Ht].
  destruct (scan_down (messages (hooks w)) (Message.id t)
              (length (messages (hooks w)))) as [m|] eqn:Hscan.
  - simpl. rewrite (scan_down_id _ _ _ _ Hscan), Hscan. reflexivity.
  - by rewrite Ht, Hscan.
Qed.

(** ** Sending and retrying *)

Lemma string_app_inv_head (p a b : string) : p ++ a = p ++ b → a = b.
Proof.
  induction p as [|c p IH]; simpl; [done|]. intros [= H]. by apply IH.
Qed.

(** X12: The identifier of a preview is the local user's identifier, a dash and
    the fresh uuid: two previews of one client with different uuids never
    share an identifier, whatever their drafts.  A preview is in [sending]
    status, is authored by the local user, and replies to the parent of
    the draft when that parent has a non-empty identifier. *)
Theorem preview_identifiers_distinct (w : World) (d1 d2 : Draft)
    (u1 u2 : string) :
  (u1 ≠ u2 →
   Message.id (preview_of w d1 u1) ≠ Message.id (preview_of w d2 u2))
  ∧ Message.id (preview_of w d1 u1) = userID (client w) ++ "-" ++ u1
  ∧ Message.status (preview_of w d1 u1) = sending
  ∧ Message.user (preview_of w d1 u1) = client_user (client w)
  ∧ (∀ p, draft_parent d1 = Some p → Message.id p ≠ "" →
          Message.parent_id (preview_of w d1 u1) = Some (Message.id p))
  ∧ (draft_parent d1 = None → Message.parent_id (preview_of w d1 u1) = None).
Proof.
  split.
  { intros Hne E. apply Hne. simpl in E.
    by apply string_app_inv_head, (string_app_inv_head "-") in E. }
  do 3 (split; [reflexivity|]). split.
  - intros p Hp Hid. simpl. rewrite Hp. simpl. unfold or_null, truthy.
    by rewrite bool_decide_eq_true_2.
  - intros Hp. simpl. by rewrite Hp.
Qed.

(** X13: The request of a send carries the preview's identifier, text,
    attachments, mentioned users and parent; a retry of the same message,
    in whatever status it is stored, carries the same data, through the
    same transport (the [doSendMessageRequest] override when the prop is
    given, [channel.sendMessage] otherwise). *)
Theorem retry_resends_same_data (cl cl' : Hooks) (d : Draft) (uuid : string)
    (st : Status) (w w2 : World) :
  let preview := preview_of w d uuid in
  let data :=
    mkMessageData (draft_text d) (default [] (draft_attachments d))
      (default [] (draft_mentioned_users d))
      (userID (client w) ++ "-" ++ uuid)
      (draft_parent d ≫= λ p, or_null (Message.id p)) in
  started (sendMessage cl d uuid w)
  = Some (if doSendMessageRequest w
          then DoSendMessageRequest (cid (channel w)) data
          else SendMessage data)
  ∧ started (retrySendMessage cl' (Message.with_status preview st) w2)
    = Some (if doSendMessageRequest w2
            then DoSendMessageRequest (cid (channel w2)) data
            else SendMessage data).
Proof.
  intros preview data. split.
  - unfold sendMessage. rewrite started_doSendMessage, updateMessage_send_call.
    reflexivity.
  - unfold retrySendMessage.
    rewrite started_doSendMessage, updateMessage_send_call. reflexivity.
Qed.

(** X14: Neither [sendMessage] nor [retrySendMessage] ever throws, whatever the
    backend answers; an answer that carries no message leaves the world as
    it is when the answer arrives. *)
Theorem send_never_throws (cl : Hooks) (w w' : World) (reply : Reply) :
  (∀ d uuid, ∃ w'', resume (sendMessage cl d uuid w) reply w' = Return w'')
  ∧ (∀ m, ∃ w'', resume (retrySendMessage cl m w) reply w' = Return w'')
  ∧ (∀ d uuid r,
       reply = Resolved r → response_message r = None →
       resume (sendMessage cl d uuid w) reply w' = Return w').
Proof.
  split; [|split].
  - intros d uuid. unfold sendMessage, doSendMessage. simpl.
    destruct reply as [r|]; [|eauto].
    destruct (response_message r); eauto.
  - intros m. unfold retrySendMessage, doSendMessage. simpl.
    destruct reply as [r|]; [|eauto].
    destruct (response_message r); eauto.
  - intros d uuid r -> Hr. unfold sendMessage, doSendMessage. simpl.
    by rewrite Hr.
Qed.

(** An answer that carries a message is stored with [received] status,
    whatever status the answer gives it, and the main sequence shown is the
    store's. *)
Theorem send_success_applies_answer (cl : Hooks) (w w' : World) (r : Response)
    (m : Message.t) :
  response_message r = Some m →
  (∀ d uuid,
     ∃ w'', resume (sendMessage cl d uuid w) (Resolved r) w' = Return w''
       ∧ state (channel w'')
         = ChannelState.addMessageSorted (Message.with_status m received)
             (state (channel w'))
       ∧ messages (hooks w'') = ChannelState.messages (state (channel w'')))
  ∧ (∀ message,
       ∃ w'', resume (retrySendMessage cl message w) (Resolved r) w' = Return w''
         ∧ state (channel w'')
           = ChannelState.addMessageSorted (Message.with_status m received)
               (state (channel w'))
         ∧ messages (hooks w'') = ChannelState.messages (state (channel w''))).
Proof.
  intros Hr. split.
  - intros d uuid. unfold sendMessage, doSendMessage. simpl. rewrite Hr.
    eexists. split; [reflexivity|].
    split; [apply updateMessage_state | apply updateMessage_messages].
  - intros message. unfold retrySendMessage, doSendMessage. simpl. rewrite Hr.
    eexists. split; [reflexivity|].
    split; [apply updateMessage_state | apply updateMessage_messages].
Qed.

Lemma send_success_applies_answer_witness :
  let d := mkDraft "hi" None None None in
  let p := sendMessage (hooks world_main) d "u1" world_main in
  let answer := Message.with_status (preview_of world_main d "u1") sending in
  ∃ w'', resume p (Resolved (mkResponse None (Some answer))) (world_of p)
         = Return w''
    ∧ Message.status <$> messages (hooks w'') = [received; received].
Proof.
  destruct (proj1 (send_success_applies_answer (hooks world_main) world_main
                     (world_of (sendMessage (hooks world_main)
                                  (mkDraft "hi" None None None) "u1" world_main))
                     (mkResponse None
                        (Some (Message.with_status
                                 (preview_of world_main
                                    (mkDraft "hi" None None None) "u1") sending)))
                     _ eq_refl)
              (mkDraft "hi" None None None) "u1")
    as (w'' & Hres & Hst & Hm).
  exists w''. split; [exact Hres|]. rewrite Hm, Hst. reflexivity.
Defined.

(** ** Mounting *)

(** X16: When [channel.watch()] throws, the error is stored and rendered, the
    component keeps loading, nothing is copied from the store, no listener
    is registered and the channel is not marked read; the cleanup of that
    run does nothing. *)
Theorem watch_failure_shows_error (e : string) (unread : nat)
    (has_watch : bool) (m : Mounted) :
  let m' := watch_settled (Some e) unread m in
  error m' = Some e
  ∧ render_core has_watch m' = LoadingErrorIndicator e
  ∧ loading m' = loading m
  ∧ listening m' = listening m
  ∧ hooks (world m') = hooks (world m)
  ∧ members m' = members m
  ∧ markRead_requests (world m') = markRead_requests (world m)
  ∧ mount_cleanup m' = m'.
Proof. intros m'. subst m'. repeat split. Qed.

(** X17: When [channel.watch()] resolves, the run copies the messages, the read
    receipts, the watchers, the members and the watcher count from the
    store (not the typing users), stops loading, marks the channel read
    when it has unread messages, takes the document's title as the original
    title and registers its listeners, which its cleanup removes. *)
Theorem watch_success_subscribes (unread : nat) (m : Mounted) :
  errored m = false →
  let m' := watch_settled None unread m in
  let s := state (channel (world m)) in
  loading m' = false
  ∧ listening m' = true
  ∧ listening (mount_cleanup m') = false
  ∧ messages (hooks (world m')) = ChannelState.messages s
  ∧ read (hooks (world m')) = ChannelState.read s
  ∧ watchers (hooks (world m')) = ChannelState.watchers s
  ∧ watcherCount (hooks (world m')) = ChannelState.watcher_count s
  ∧ members m' = ChannelState.members s
  ∧ typing (hooks (world m')) = typing (hooks (world m))
  ∧ originalTitle (world m') = title (document (world m))
  ∧ markRead_requests (world m')
    = (if bool_decide (0 < unread)%nat then S (markRead_requests (world m))
       else markRead_requests (world m))
  ∧ error m' = error m
  ∧ (error m = None → render_core true m' = ContextProvider).
Proof.
  intros He m' s. subst m' s. unfold watch_settled, after_watch. simpl.
  rewrite He. unfold render_core, mount_cleanup.
  case_bool_decide; simpl; rewrite ?He; simpl; repeat split;
    try (intros ->; reflexivity).
Qed.

Lemma watch_success_subscribes_witness :
  let m' := watch_settled None 2 (fresh_mount world_thread_empty) in
  loading m' = false
  ∧ listening m' = true
  ∧ markRead_requests (world m') = 1%nat
  ∧ render_core true m' = ContextProvider.
Proof.
  destruct (watch_success_subscribes 2 (fresh_mount world_thread_empty) eq_refl)
    as (Hl & Hs & _ & _ & _ & _ & _ & _ & _ & _ & Hr & _ & Hc).
  split; [exact Hl|]. split; [exact Hs|]. split; [exact Hr|].
  exact (Hc eq_refl).
Defined.

(** X18: A component that is unmounted while [channel.watch()] is pending is
    not cleaned up: the cleanup of the run does nothing, being called
    before the run is [done], and when the watch later resolves the run
    still registers its listeners and writes the component's state. *)
Theorem unmount_before_watch_settles (unread unread' : nat) (m : Mounted) :
  ∃ m1, mount_effect false unread m = inr m1
    ∧ mount_cleanup m1 = m1
    ∧ listening (watch_settled None unread' (mount_cleanup m1)) = true
    ∧ loading (watch_settled None unread' (mount_cleanup m1)) = false.
Proof.
  eexists. split; [reflexivity|]. split; [reflexivity|].
  unfold watch_settled, after_watch. simpl. by case_bool_decide.
Qed.

(** X19: Every run of the effect takes the title the document has at that
    moment as the original title.  A run on an initialized channel while
    the unread badge is in the title therefore makes the badge the
    original title, and a later [markRead] leaves the badge in place. *)
Theorem effect_rerun_keeps_badge (unread n : nat) (m : Mounted) :
  title (document (world m)) = unread_title n (originalTitle (world m)) →
  ∃ m', mount_effect true unread m = inl m'
    ∧ originalTitle (world m') = unread_title n (originalTitle (world m))
    ∧ title (document (markRead (world m')))
      = unread_title n (originalTitle (world m)).
Proof.
  intros Ht. eexists. split; [reflexivity|].
  unfold after_watch, markRead. simpl.
  case_bool_decide; simpl; rewrite Ht; split; try reflexivity;
    destruct (disconnected (channel (world m))
              || negb (read_events (channel (world m)))); simpl;
    by rewrite ?Ht.
Qed.

Lemma effect_rerun_keeps_badge_witness :
  let w := with_title "(3) Chat" world_background in
  ∃ m', mount_effect true 0 (fresh_mount w) = inl m'
    ∧ title (document (markRead (world m'))) = "(3) Chat".
Proof.
  destruct (effect_rerun_keeps_badge 0 3
              (fresh_mount (with_title "(3) Chat" world_background)) eq_refl)
    as (m' & Hrun & _ & Ht).
  exists m'. split; [exact Hrun | exact Ht].
Defined.

(** ** The status line of the team message, continued *)

Lemma MessageTeamStatus_delivered (p : MessageTeam.Props) :
  MessageTeam.MessageTeamStatus p = MessageTeam.Delivered
  ↔ MessageTeam.isMyMessage p = true
    ∧ Message.type <$> MessageTeam.message p ≠ Some "error"
    ∧ Message.status <$> MessageTeam.message p ≠ Some sending
    ∧ MessageTeam.shows_read_status p = false
    ∧ MessageTeam.shows_delivered p = true.
Proof.
  unfold MessageTeam.MessageTeamStatus.
  destruct (MessageTeam.isMyMessage p); simpl; [|split; [done | by intros [? _]]].
  case_bool_decide as Herr; [split; [done | by intros (_ & ? & _)]|].
  case_bool_decide as Hsend; [split; [done | by intros (_ & _ & ? & _)]|].
  destruct (MessageTeam.shows_read_status p);
    [split; [done | by intros (_ & _ & _ & ? & _)]|].
  destruct (MessageTeam.shows_delivered p); [done|].
  split; [done | by intros (_ & _ & _ & _ & ?)].
Qed.

Lemma shows_delivered_true (p : MessageTeam.Props) :
  MessageTeam.shows_delivered p = true
  ↔ MessageTeam.threadList p = false
    ∧ ∃ m, MessageTeam.message p = Some m
        ∧ Message.status m = received
        ∧ MessageTeam.lastReceivedId p = Some (Message.id m).
Proof.
  unfold MessageTeam.shows_delivered.
  destruct (MessageTeam.message p) as [m|];
    [|split; [done | by intros (_ & m & ? & _)]].
  rewrite !andb_true_iff, !bool_decide_eq_true, negb_true_iff. split.
  - intros [[Hst Hid] Hth]. split; [done|]. by exists m.
  - intros (Hth & m' & [= <-] & Hst & Hid). done.
Qed.

Lemma shows_read_status_false (p : MessageTeam.Props) :
  MessageTeam.threadList p = false →
  (MessageTeam.shows_read_status p = false
   ↔ MessageTeam.readBy p = None
     ∨ MessageTeam.readBy p = Some []
     ∨ MessageTeam.justReadByMe p = true).
Proof.
  intros Hth. unfold MessageTeam.shows_read_status. rewrite Hth.
  destruct (MessageTeam.readBy p) as [[|u rb]|]; simpl.
  - split; [by right; left | done].
  - destruct (MessageTeam.justReadByMe p); simpl.
    + split; [by right; right | done].
    + split; [done | by intros [? | [? | ?]]].
  - split; [by left | done].
Qed.

(** X20: The delivered mark is shown exactly for a received message of the
    local user that is the last received one, outside a thread list, and
    that nobody has read or only the local user has. *)
Theorem delivered_iff (p : MessageTeam.Props) :
  MessageTeam.MessageTeamStatus p = MessageTeam.Delivered
  ↔ MessageTeam.isMyMessage p = true
    ∧ MessageTeam.threadList p = false
    ∧ (∃ m, MessageTeam.message p = Some m
         ∧ Message.type m ≠ "error"
         ∧ Message.status m = received
         ∧ MessageTeam.lastReceivedId p = Some (Message.id m))
    ∧ (MessageTeam.readBy p = None
       ∨ MessageTeam.readBy p = Some []
       ∨ MessageTeam.justReadByMe p = true).
Proof.
  rewrite MessageTeamStatus_delivered, shows_delivered_true. split.
  - intros (Hmine & Herr & _ & Hread & Hth & m & Hm & Hst & Hid).
    split; [done|]. split; [done|]. split.
    + exists m. split; [done|]. split; [|done].
      intros E. apply Herr. by rewrite Hm, <- E.
    + by apply shows_read_status_false.
  - intros (Hmine & Hth & (m & Hm & Herr & Hst & Hid) & Hread).
    split; [done|]. rewrite Hm. simpl. split; [by intros [= ?]|].
    split; [intros [= E]; by rewrite Hst in E|].
    split; [by apply shows_read_status_false|].
    split; [done|]. by exists m.
Qed.

Lemma MessageTeamStatus_in_thread_list (p : MessageTeam.Props) :
  MessageTeam.threadList p = true →
  MessageTeam.MessageTeamStatus p = MessageTeam.Sending
  ∨ MessageTeam.MessageTeamStatus p = MessageTeam.Nothing.
Proof.
  intros Hth. unfold MessageTeam.MessageTeamStatus,
    MessageTeam.shows_read_status, MessageTeam.shows_delivered.
  rewrite Hth.
  destruct (negb _ || _); [by right|].
  case_bool_decide; [by left|].
  destruct (MessageTeam.readBy p); simpl; rewrite ?andb_false_r; simpl;
    destruct (MessageTeam.message p); simpl; rewrite ?andb_false_r;
    by right.
Qed.

(** X21: In a thread list the status line shows the sending spinner or nothing:
    never the read status and never the delivered mark.  The spinner is
    shown exactly for a message of the local user, not an error, that is
    being sent. *)
Theorem thread_list_status (p : MessageTeam.Props) :
  (MessageTeam.threadList p = true →
   MessageTeam.MessageTeamStatus p = MessageTeam.Sending
   ∨ MessageTeam.MessageTeamStatus p = MessageTeam.Nothing)
  ∧ (MessageTeam.MessageTeamStatus p = MessageTeam.Sending
     ↔ MessageTeam.isMyMessage p = true
       ∧ ∃ m, MessageTeam.message p = Some m
           ∧ Message.type m ≠ "error"
           ∧ Message.status m = sending).
Proof.
  split; [apply MessageTeamStatus_in_thread_list|].
  unfold MessageTeam.MessageTeamStatus.
  destruct (MessageTeam.isMyMessage p); simpl;
    [|split; [done | by intros [? _]]].
  destruct (MessageTeam.message p) as [m|]; simpl.
  - case_bool_decide as Herr.
    { split; [done|]. intros (_ & m' & [= <-] & Hne & _).
      exfalso. apply Hne. by injection Herr. }
    case_bool_decide as Hsend.
    { split; [|done]. intros _. split; [done|]. exists m.
      split; [done|]. split; [|by injection Hsend].
      intros E. apply Herr. by rewrite E. }
    split.
    + destruct (MessageTeam.shows_read_status _); [done|].
      by destruct (MessageTeam.shows_delivered _).
    + intros (_ & m' & [= <-] & _ & Hst). destruct Hsend. by rewrite Hst.
  - split.
    + destruct (MessageTeam.shows_read_status _); [done|].
      by destruct (MessageTeam.shows_delivered _).
    + by intros (_ & m' & ? & _).
Qed.

Lemma MessageTeamStatus_ReadStatus (p : MessageTeam.Props)
    (u : option User.t) (c : option nat) :
  MessageTeam.MessageTeamStatus p = MessageTeam.ReadStatus u c →
  MessageTeam.shows_read_status p = true
  ∧ u = MessageTeam.lastReadUser p (default [] (MessageTeam.readBy p))
  ∧ c = (if bool_decide (1 < length (default [] (MessageTeam.readBy p)) - 1)%nat
         then Some (length (default [] (MessageTeam.readBy p)) - 1)%nat
         else None).
Proof.
  unfold MessageTeam.MessageTeamStatus.
  destruct (negb _ || _); [done|].
  case_bool_decide; [done|].
  destruct (MessageTeam.shows_read_status p).
  - by intros [= <- <-].
  - by destruct (MessageTeam.shows_delivered p).
Qed.

(** X22: When the read status is rendered for a known local user, the avatar
    shown is a reader other than the local user, and the number beside it
    is shown for three readers or more and is the number of readers less
    one.  When the readers have distinct identifiers there is such a
    reader to show. *)
Theorem read_status_avatar (p : MessageTeam.Props) (rb : list User.t)
    (me : User.t) (u : option User.t) (c : option nat) :
  MessageTeam.readBy p = Some rb →
  MessageTeam.client_user p = Some me →
  MessageTeam.MessageTeamStatus p = MessageTeam.ReadStatus u c →
  c = (if bool_decide (3 ≤ length rb)%nat then Some (length rb - 1)%nat
       else None)
  ∧ (∀ x, u = Some x → x ∈ rb ∧ User.id x ≠ User.id me)
  ∧ (NoDup (User.id <$> rb) → ∃ x, u = Some x).
Proof.
  intros Hrb Hme (Hshow & -> & ->)%MessageTeamStatus_ReadStatus.
  rewrite Hrb. simpl. unfold MessageTeam.lastReadUser. rewrite Hme.
  split; [|split].
  - do 2 case_bool_decide; try done; lia.
  - intros x Hx. apply list_elem_of_lookup_2, list_elem_of_filter in Hx.
    tauto.
  - intros Hnd.
    unfold MessageTeam.shows_read_status, MessageTeam.justReadByMe in Hshow.
    rewrite Hrb, Hme in Hshow.
    destruct (filter (λ item, User.id item ≠ User.id me) rb) as [|x l] eqn:Hf;
      [|exists x; done].
    exfalso.
    assert (Hall : ∀ x, x ∈ rb → User.id x = User.id me).
    { intros x Hx. destruct (decide (User.id x = User.id me)) as [|Hne]; [done|].
      by destruct (filter_nil_not_elem_of _ _ x Hf Hne). }
    destruct rb as [|x [|y rb]]; simpl in Hshow.
    + done.
    + rewrite (bool_decide_eq_true_2 (User.id x = User.id me)) in Hshow
        by (apply Hall; left).
      by rewrite !andb_false_r in Hshow.
    + rewrite !fmap_cons in Hnd. apply NoDup_cons in Hnd as [Hx _].
      apply Hx. rewrite (Hall x) by left.
      rewrite <- (Hall y) by (right; left). left.
Qed.

Lemma read_status_avatar_witness :
  (bob ∈ [alice; bob] ∧ User.id bob ≠ User.id alice)
  ∧ None = (if bool_decide (3 ≤ length [alice; bob])%nat
            then Some (length [alice; bob] - 1)%nat else None).
Proof.
  destruct (read_status_avatar own_message_read_by_two [alice; bob] alice
              (Some bob) None eq_refl eq_refl eq_refl) as (Hc & Hother & _).
  split; [exact (Hother bob eq_refl) | exact Hc].
Defined.

(** ** The team message layout *)

(** X23: The layout renders nothing for a read marker, even a deleted or an
    edited one; otherwise the deleted placeholder for a deleted message,
    even while it is edited; otherwise the edit form while editing; and
    the full layout only when none of these holds. *)
Theorem layout_precedence (p : MessageTeamLayout.Props) :
  (∀ m, MessageTeamLayout.message p = Some m →
        Message.type m = "message.read" →
        MessageTeamLayout.UnMemoizedMessageTeam p = MessageTeamLayout.Nothing)
  ∧ (∀ m, MessageTeamLayout.message p = Some m →
          Message.type m ≠ "message.read" →
          MessageTeamLayout.deleted_at p ≠ None →
          MessageTeamLayout.UnMemoizedMessageTeam p = MessageTeamLayout.Deleted)
  ∧ (∀ parts,
       MessageTeamLayout.UnMemoizedMessageTeam p = MessageTeamLayout.Layout parts →
       MessageTeamLayout.editing p = false
       ∧ ∀ m, MessageTeamLayout.message p = Some m →
              Message.type m ≠ "message.read"
              ∧ MessageTeamLayout.deleted_at p = None).
Proof.
  unfold MessageTeamLayout.UnMemoizedMessageTeam, MessageTeamLayout.message_is.
  split; [|split].
  - intros m -> Hty. by rewrite bool_decide_eq_true_2.
  - intros m -> Hty Hdel. rewrite bool_decide_eq_false_2 by done.
    by rewrite bool_decide_eq_true_2.
  - intros parts.
    destruct (MessageTeamLayout.message p) as [m|].
    + case_bool_decide as Hty; [done|].
      case_bool_decide as Hdel; simpl; [done|].
      destruct (MessageTeamLayout.editing p); [done|].
      intros _. split; [done|]. intros m' [= <-]. split; [done|].
      by destruct (MessageTeamLayout.deleted_at p); [destruct Hdel|].
    + simpl. destruct (MessageTeamLayout.editing p); [done|]. by intros _.
Qed.

Lemma layout_parts (p : MessageTeamLayout.Props) (parts : MessageTeamLayout.Parts) :
  MessageTeamLayout.UnMemoizedMessageTeam p = MessageTeamLayout.Layout parts →
  ∃ q, MessageTeamLayout.Layout parts = MessageTeamLayout.Layout q
    ∧ MessageTeamLayout.attachments_in_content q
      = MessageTeamLayout.message_is MessageTeamLayout.text_empty p
        && MessageTeamLayout.MessageTeamAttachments p
    ∧ MessageTeamLayout.attachments_below q
      = MessageTeamLayout.message_is (λ m, negb (MessageTeamLayout.text_empty m)) p
        && MessageTeamLayout.attachments_defined p
        && MessageTeamLayout.MessageTeamAttachments p
    ∧ MessageTeamLayout.reactions_in_content q
      = MessageTeamLayout.has_reactions p
        && MessageTeamLayout.message_is
             (λ m, negb (MessageTeamLayout.text_empty m)) p
        && MessageTeamLayout.isReactionEnabled p
    ∧ MessageTeamLayout.reactions_below q
      = MessageTeamLayout.has_reactions p
        && MessageTeamLayout.message_is MessageTeamLayout.text_empty p
        && MessageTeamLayout.isReactionEnabled p
    ∧ MessageTeamLayout.failed_button q
      = MessageTeamLayout.message_is
          (λ m, bool_decide (Message.status m = failed)) p
    ∧ MessageTeamLayout.reaction_selector q
      = MessageTeamLayout.shows_actions p
        && MessageTeamLayout.showDetailedReactions p
    ∧ MessageTeamLayout.reaction_icon q
      = MessageTeamLayout.shows_actions p && MessageTeamLayout.isReactionEnabled p
    ∧ MessageTeamLayout.thread_icon q
      = MessageTeamLayout.shows_actions p
        && negb (MessageTeamLayout.threadList p)
        && negb (MessageTeamLayout.replies_disabled p)
    ∧ MessageTeamLayout.message_actions q
      = MessageTeamLayout.shows_actions p
        && match MessageTeamLayout.messageActions p with
           | Some l => bool_decide (0 < length l)%nat
           | None => false
           end
    ∧ MessageTeamLayout.replies_button q
      = negb (MessageTeamLayout.threadList p)
        && MessageTeamLayout.message_is (λ _, true) p
    ∧ MessageTeamLayout.status_line q
      = MessageTeam.MessageTeamStatus (MessageTeamLayout.status_props p).
Proof.
  unfold MessageTeamLayout.UnMemoizedMessageTeam.
  destruct (MessageTeamLayout.message_is _ p); [done|].
  destruct (_ && bool_decide _); [done|].
  destruct (MessageTeamLayout.editing p); [done|].
  intros [= <-]. eexists. split; [reflexivity|]. repeat split.
Qed.



(** X25: The retry button is rendered exactly for a failed message, and then
    no part of the action bar is: no reaction selector, reaction icon,
    thread icon or message actions.  The same holds for a message being
    sent, a system, an ephemeral or an error message, and for the initial
    message of a thread.  A click on the button retries that message when
    a retry handler exists, and does nothing otherwise. *)
Theorem failed_message_layout (p : MessageTeamLayout.Props)
    (parts : MessageTeamLayout.Parts) :
  MessageTeamLayout.UnMemoizedMessageTeam p = MessageTeamLayout.Layout parts →
  (MessageTeamLayout.failed_button parts = true
   ↔ ∃ m, MessageTeamLayout.message p = Some m ∧ Message.status m = failed)
  ∧ ((MessageTeamLayout.initialMessage p = true
      ∨ ∃ m, MessageTeamLayout.message p = Some m
          ∧ (Message.status m = failed ∨ Message.status m = sending
             ∨ Message.type m = "system" ∨ Message.type m = "ephemeral"
             ∨ Message.type m = "error")) →
     MessageTeamLayout.reaction_selector parts = false
     ∧ MessageTeamLayout.reaction_icon parts = false
     ∧ MessageTeamLayout.thread_icon parts = false
     ∧ MessageTeamLayout.message_actions parts = false)
  ∧ (∀ m, MessageTeamLayout.failed_button_click p = Some m
          ↔ MessageTeamLayout.message p = Some m
            ∧ Message.status m = failed
            ∧ MessageTeamLayout.retry p = true).
Proof.
  intros (q & [= ->] & _ & _ & _ & _ & -> & -> & -> & -> & -> & _)%layout_parts.
  split; [|split].
  - unfold MessageTeamLayout.message_is.
    destruct (MessageTeamLayout.message p) as [m|].
    + rewrite bool_decide_eq_true. split; [by exists m|].
      by intros (m' & [= <-] & ?).
    + split; [done | by intros (m' & ? & _)].
  - intros Hoff.
    assert (Hno : MessageTeamLayout.shows_actions p = false).
    { unfold MessageTeamLayout.shows_actions, MessageTeamLayout.message_is.
      destruct Hoff as [-> | (m & -> & Hm)]; [done|].
      destruct (MessageTeamLayout.initialMessage p); simpl; [done|].
      destruct Hm as [-> | [-> | [-> | [-> | ->]]]]; simpl;
        rewrite ?andb_false_r; done. }
    by rewrite Hno.
  - intros m. unfold MessageTeamLayout.failed_button_click.
    destruct (MessageTeamLayout.message p) as [m'|];
      [|split; [done | by intros [? _]]].
    case_bool_decide as Hst; simpl.
    + destruct (MessageTeamLayout.retry p).
      * split; [by intros [= <-] | by intros ([= <-] & _)].
      * split; [done | by intros (_ & _ & ?)].
    + split; [done|]. intros ([= <-] & ? & _). done.
Qed.

Lemma failed_message_layout_witness :
  ∃ parts,
    MessageTeamLayout.UnMemoizedMessageTeam failed_own_message
    = MessageTeamLayout.Layout parts
    ∧ MessageTeamLayout.failed_button parts = true
    ∧ MessageTeamLayout.message_actions parts = false.
Proof.
  eexists. split; [reflexivity|].
  destruct (failed_message_layout failed_own_message _ eq_refl)
    as (Hbutton & Hbar & _).
  split.
  - apply Hbutton. eexists. split; reflexivity.
  - apply Hbar. right. eexists. split; [reflexivity|]. by left.
Defined.

(** In a thread list the layout offers no way into a thread and no
    delivery information: no thread icon, no replies button, and a status
    line that shows the sending spinner or nothing. *)
Theorem thread_list_layout (p : MessageTeamLayout.Props)
    (parts : MessageTeamLayout.Parts) :
  MessageTeamLayout.UnMemoizedMessageTeam p = MessageTeamLayout.Layout parts →
  MessageTeamLayout.threadList p = true →
  MessageTeamLayout.thread_icon parts = false
  ∧ MessageTeamLayout.replies_button parts = false
  ∧ (MessageTeamLayout.status_line parts = MessageTeam.Sending
     ∨ MessageTeamLayout.status_line parts = MessageTeam.Nothing).
Proof.
  intros (q & [= ->] & _ & _ & _ & _ & _ & _ & _ & -> & _ & -> & ->)%layout_parts
    Hth.
  rewrite Hth. simpl. rewrite andb_false_r. split; [done|]. split; [done|].
  by apply MessageTeamStatus_in_thread_list.
Qed.

Lemma thread_list_layout_witness :
  ∃ parts,
    MessageTeamLayout.UnMemoizedMessageTeam received_reply_in_thread_list
    = MessageTeamLayout.Layout parts
    ∧ MessageTeamLayout.replies_button parts = false
    ∧ MessageTeamLayout.thread_icon parts = false.
Proof.
  eexists. split; [reflexivity|].
  destruct (thread_list_layout received_reply_in_thread_list _ eq_refl eq_refl)
    as (Hicon & Hbutton & _).
  split; [exact Hbutton | exact Hicon].
Defined.

(** ** The link card *)

Lemma before_slash_no_slash (s : string) : Card.no_slash (Card.before_slash s).
Proof.
  induction s as [|c s IH]; intros a b; simpl.
  - by destruct a.
  - destruct (Ascii.eqb_spec c Card.slash) as [->|Hc]; [by destruct a|].
    destruct a as [|c' a]; simpl.
    + intros [= E _]. by apply Hc.
    + intros [= _ E]. by apply (IH a b).
Qed.

Lemma before_slash_host (host path : string) :
  Card.no_slash host →
  Card.before_slash (host ++ String Card.slash path) = host
  ∧ Card.before_slash host = host.
Proof.
  induction host as [|c host IH]; intros Hno; simpl.
  - done.
  - destruct (Ascii.eqb_spec c Card.slash) as [->|Hc].
    + by destruct (Hno "" host).
    + destruct IH as [IH1 IH2].
      { intros a b E. apply (Hno (String c a) b). simpl. by rewrite E. }
      by rewrite IH1, IH2.
Qed.

(** X26: [trimUrl] keeps [null] and otherwise returns a text without a slash. *)
Theorem trimUrl_no_slash (url : option string) :
  (url = None → Card.trimUrl url = None)
  ∧ (∀ s, url = Some s →
          ∃ r, Card.trimUrl url = Some r ∧ Card.no_slash r).
Proof.
  split; [by intros ->|]. intros s ->. eexists. split; [reflexivity|].
  apply before_slash_no_slash.
Qed.

Lemma strip_prefixes (t : string) :
  Card.strip_www (Card.strip_scheme ("https://www." ++ t)) = t
  ∧ Card.strip_www (Card.strip_scheme ("http://www." ++ t)) = t
  ∧ Card.strip_www (Card.strip_scheme ("HTTPS://WWW." ++ t)) = t
  ∧ Card.strip_www (Card.strip_scheme ("www." ++ t)) = t
  ∧ Card.strip_scheme ("https://" ++ t) = t.
Proof. repeat split. Qed.

Lemma append_cons (c : Ascii.ascii) (s t : string) :
  String c s ++ t = String c (s ++ t).
Proof. reflexivity. Qed.

Lemma prefix_ci_www_app (host rest : string) :
  Card.prefix_ci "www." host = None →
  Card.prefix_ci "www." (host ++ String Card.slash rest) = None.
Proof.
  intros Hw.
  destruct host as [|c1 host]; [reflexivity|].
  rewrite append_cons. cbn [Card.prefix_ci] in *.
  destruct (Ascii.eqb (Card.lower _) (Card.lower c1)); [|done].
  destruct host as [|c2 host]; [reflexivity|].
  rewrite append_cons. cbn [Card.prefix_ci] in *.
  destruct (Ascii.eqb (Card.lower _) (Card.lower c2)); [|done].
  destruct host as [|c3 host]; [reflexivity|].
  rewrite append_cons. cbn [Card.prefix_ci] in *.
  destruct (Ascii.eqb (Card.lower _) (Card.lower c3)); [|done].
  destruct host as [|c4 host]; [reflexivity|].
  rewrite append_cons. cbn [Card.prefix_ci] in *.
  destruct (Ascii.eqb (Card.lower _) (Card.lower c4)); done.
Qed.

(** X27: [trimUrl] returns the host of a url: the text after the scheme
    ([http://] or [https://], in any case) and one [www.], up to the first
    slash.  Without [www.] in the url the host must not itself start with
    it. *)
Theorem trimUrl_host (host path : string) :
  Card.no_slash host →
  Card.trimUrl (Some ("https://www." ++ host ++ String Card.slash path))
  = Some host
  ∧ Card.trimUrl (Some ("http://www." ++ host ++ String Card.slash path))
    = Some host
  ∧ Card.trimUrl (Some ("HTTPS://WWW." ++ host ++ String Card.slash path))
    = Some host
  ∧ Card.trimUrl (Some ("https://www." ++ host)) = Some host
  ∧ Card.trimUrl (Some ("www." ++ host ++ String Card.slash path)) = Some host
  ∧ (Card.prefix_ci "www." host = None →
     Card.trimUrl (Some ("https://" ++ host ++ String Card.slash path))
     = Some host).
Proof.
  intros Hno. destruct (before_slash_host host path Hno) as [H1 H2].
  destruct (strip_prefixes (host ++ String Card.slash path))
    as (E1 & E2 & E3 & E4 & E5).
  destruct (strip_prefixes host) as (E6 & _).
  unfold Card.trimUrl.
  rewrite E1, E2, E3, E4, E5, E6, H1, H2.
  do 5 (split; [done|]).
  intros Hw. unfold Card.strip_www.
  rewrite (prefix_ci_www_app host path Hw). simpl. by rewrite H1.
Qed.

Lemma trimUrl_host_witness :
  Card.trimUrl (Some "https://www.getstream.io/chat/docs") = Some "getstream.io"
  ∧ Card.trimUrl (Some "HTTPS://WWW.getstream.io/chat/docs")
    = Some "getstream.io".
Proof.
  assert (Hno : Card.no_slash "getstream.io")
    by apply (before_slash_no_slash "getstream.io").
  destruct (trimUrl_host "getstream.io" "chat/docs" Hno)
    as (H1 & _ & H3 & _).
  split; [exact H1 | exact H3].
Defined.

(** X28: The card of the first theme is rendered only with a link: without a
    title link and a scraped url it is the placeholder or nothing, and a
    rendered card links to the title link, or else to the scraped url, under
    the trimmed form of that target.  The card of the second theme is
    rendered for every attachment with a title. *)
Theorem CardV1_needs_link (p : Card.Props) :
  (truthy_opt (Card.title_link p) = false →
   truthy_opt (Card.og_scrape_url p) = false →
   Card.CardV1 p = Card.TypeError
   ∨ Card.CardV1 p = Card.UnableToRenderCard (Card.type p)
   ∨ Card.CardV1 p = Card.Null)
  ∧ (∀ i d t x l,
       Card.CardV1 p = Card.CardV1View i d t x l →
       truthy_opt (Card.href l) = true
       ∧ Card.href l = Card.js_or (Card.title_link p) (Card.og_scrape_url p)
       ∧ Card.label l = Card.trimUrl (Card.href l))
  ∧ (truthy_opt (Card.title p) = true →
     Card.card_image p ≠ None →
     ∃ h a s t x, Card.CardV2 p = Card.CardV2View h a s t x).
Proof.
  unfold Card.CardV1, Card.CardV2. split; [|split].
  - intros Hl Ho. rewrite Hl, Ho.
    destruct (Card.card_image p) as [[image dims]|]; [|by left].
    simpl. destruct (negb _ && _ && _); [right; by left | right; by right].
  - intros i d t x l.
    destruct (Card.card_image p) as [[image dims]|]; [|done].
    destruct (negb _ && _ && _); [done|].
    destruct (truthy_opt (Card.title_link p)) eqn:Hl; simpl.
    + intros [= _ _ _ _ <-]. simpl. unfold Card.js_or. by rewrite Hl.
    + destruct (truthy_opt (Card.og_scrape_url p)) eqn:Ho; simpl; [|done].
      intros [= _ _ _ _ <-]. simpl. unfold Card.js_or. by rewrite Hl.
  - intros Ht Hi. destruct (Card.card_image p) as [[image dims]|]; [|done].
    rewrite Ht. simpl. eauto 10.
Qed.

(** X29: When an attachment has both a title link and a scraped url, the card
    of the first theme links to the title link and the card of the second
    theme to the scraped url, labelled with the author's name if there is
    one and with the trimmed url otherwise. *)
Theorem card_link_precedence (p : Card.Props) :
  truthy_opt (Card.title_link p) = true →
  truthy_opt (Card.og_scrape_url p) = true →
  Card.card_image p ≠ None →
  (∃ i d t x l, Card.CardV1 p = Card.CardV1View i d t x l
     ∧ Card.href l = Card.title_link p)
  ∧ (∃ h a l t x, Card.CardV2 p = Card.CardV2View h a (Some l) t x
       ∧ Card.href l = Card.og_scrape_url p
       ∧ Card.label l
         = if truthy_opt (Card.author_name p) then Card.author_name p
           else Card.trimUrl (Card.og_scrape_url p)).
Proof.
  intros Hl Ho Hi. unfold Card.CardV1, Card.CardV2, Card.js_or.
  destruct (Card.card_image p) as [[image dims]|]; [|done].
  rewrite Hl, Ho. simpl. rewrite andb_false_r. simpl. split.
  - do 5 eexists. split; reflexivity.
  - rewrite Ho. do 5 eexists. split; [reflexivity|]. split; reflexivity.
Qed.

Lemma card_link_precedence_witness :
  (∃ i d t x l, Card.Card (sample_card "1") = Card.CardV1View i d t x l
     ∧ Card.href l = Some "https://getstream.io/blog/post")
  ∧ (∃ h a l t x, Card.Card (sample_card "2") = Card.CardV2View h a (Some l) t x
       ∧ Card.href l = Some "https://www.getstream.io/chat/"
       ∧ Card.label l = Some "getstream.io").
Proof.
  split.
  - exact (proj1 (card_link_precedence (sample_card "1") eq_refl eq_refl
                    ltac:(discriminate))).
  - exact (proj2 (card_link_precedence (sample_card "2") eq_refl eq_refl
                    ltac:(discriminate))).
Defined.

(** X30: For a giphy the image of the card is the configured rendition of it,
    with that rendition's dimensions, whatever thumbnail or image the
    attachment carries; when the giphy lacks the configured rendition the
    card throws, in both themes.  For every other attachment the image is
    the thumbnail, or else the image, without dimensions. *)
Theorem giphy_rendition (p : Card.Props) :
  (∀ g, Card.type p = Some "giphy" → Card.giphy p = Some g →
        (Card.giphyVersion p ∉ dom g → Card.Card p = Card.TypeError)
        ∧ (∀ v, g !! Card.giphyVersion p = Some v →
                Card.card_image p
                = Some (Some (Card.url v), Some (Card.height v, Card.width v))))
  ∧ (Card.type p ≠ Some "giphy" ∨ Card.giphy p = None →
     Card.card_image p
     = Some (Card.js_or (Card.thumb_url p) (Card.image_url p), None)).
Proof.
  unfold Card.Card, Card.CardV1, Card.CardV2, Card.card_image. split.
  - intros g Hty Hg. rewrite Hg, Hty.
    rewrite !(bool_decide_eq_true_2 (Some "giphy" = Some "giphy")) by done.
    split.
    + intros Hv%not_elem_of_dom. rewrite Hv. by case_bool_decide.
    + by intros v ->.
  - intros [Hty | ->]; [|done].
    destruct (Card.giphy p); [|done].
    by rewrite (bool_decide_eq_false_2 (Card.type p = Some "giphy")).
Qed.
